(** * Task API and task state hook of the TODO application

    A shallow embedding of [packages/backend/src/app.js] (the Express route
    handlers over the in-memory SQLite [tasks] table) and of
    [packages/frontend/src/hooks/useTasks.js] (the React state hook), with
    the properties of the specification stated over them.

    Conventions of the embedding:
    - a JS string is a [string]; each [ascii] stands for one character
      (code points below 256), which is exact for ASCII text;
    - a property of a JSON body or a destructured variable is a [field]:
      absent ([Undefined]), [null] ([Null]) or a value of the type the Task
      shape gives it ([Val]);
    - the table is the list of its rows in rowid order; every statement the
      handlers prepare is a function on that list;
    - the two sources of non-determinism, [randomUUID()] and
      [new Date().toISOString()], are passed to the handlers as arguments;
    - [Date.parse] is a builtin of the engine: the handlers take the test
      [!isNaN(Date.parse(s))] as a parameter. *)

From Stdlib Require Import List String Ascii Bool Arith ZArith Lia.
From Stdlib Require Import Sorting.Sorted Sorting.Permutation.
From Stdlib Require Import DecimalString.
Import ListNotations.

Local Open Scope string_scope.
Local Open Scope list_scope.

(** ** JavaScript values and string primitives *)

Inductive field (A : Type) : Type :=
| Undefined : field A
| Null : field A
| Val : A -> field A.

Arguments Undefined {A}.
Arguments Null {A}.
Arguments Val {A} _.

(** [const { x = d } = obj]: the default applies to [undefined] only. *)
Definition with_default {A : Type} (d : field A) (x : field A) : field A :=
  match x with
  | Undefined => d
  | _ => x
  end.

Definition is_undefined {A : Type} (x : field A) : bool :=
  match x with
  | Undefined => true
  | _ => false
  end.

(** Truthiness of a string-typed property: [undefined], [null] and [''] are
    falsy. *)
Definition truthy (x : field string) : bool :=
  match x with
  | Val s => negb (s =? "")
  | _ => false
  end.

(** WhiteSpace and LineTerminator code points below 256, the characters
    [String.prototype.trim] strips: TAB, LF, VT, FF, CR, SP, NBSP. *)
Definition is_ws (c : ascii) : bool :=
  let n := nat_of_ascii c in
  (Nat.leb 9 n && Nat.leb n 13) || Nat.eqb n 32 || Nat.eqb n 160.

Arguments is_ws : simpl never.

Fixpoint trim_start (s : string) : string :=
  match s with
  | EmptyString => EmptyString
  | String c s' => if is_ws c then trim_start s' else s
  end.

Fixpoint trim_end (s : string) : string :=
  match s with
  | EmptyString => EmptyString
  | String c s' =>
      match trim_end s' with
      | EmptyString => if is_ws c then EmptyString else String c EmptyString
      | r => String c r
      end
  end.

Definition trim (s : string) : string := trim_end (trim_start s).

(** [x === 'lit'] and [typeof x === 'string']. *)
Definition strict_eq (x : field string) (lit : string) : bool :=
  match x with
  | Val s => s =? lit
  | _ => false
  end.

Definition typeof_string (x : field string) : bool :=
  match x with
  | Val _ => true
  | _ => false
  end.

(** [x.trim()]: a TypeError ([None]) on [undefined] and [null]. *)
Definition call_trim (x : field string) : option string :=
  match x with
  | Val s => Some (trim s)
  | _ => None
  end.

(** [Array.prototype.includes] on an array of strings. *)
Definition includes (l : list string) (x : field string) : bool :=
  match x with
  | Val s => existsb (String.eqb s) l
  | _ => false
  end.

(** Template literal [`${n}`] for a length. *)
Definition nat_to_string (n : nat) : string :=
  NilZero.string_of_uint (Nat.to_uint n).

(** ** The [tasks] table *)

Module Row.
(** One row of [CREATE TABLE tasks]. [dueDate] is nullable; [tags] is the
    text [JSON.stringify(tags)], which the handlers only read back through
    [JSON.parse]: the row records the value that text encodes ([None] for
    the text [null]). [completed] is the INTEGER column. *)
Record t : Type := mk {
  id : string;
  title : string;
  description : string;
  dueDate : option string;
  priority : string;
  tags : option (list string);
  completed : Z;
  createdAt : string;
  updatedAt : string
}.
End Row.

Module Task.
(** The JSON shape of a task at the HTTP boundary:
    [{...row, completed: Boolean(row.completed), tags: JSON.parse(row.tags)}]. *)
Record t : Type := mk {
  id : string;
  title : string;
  description : string;
  dueDate : option string;
  priority : string;
  tags : option (list string);
  completed : bool;
  createdAt : string;
  updatedAt : string
}.
End Task.

Definition table : Type := list Row.t.

(** [Boolean(n)] for an integer. *)
Definition Boolean (n : Z) : bool := negb (Z.eqb n 0).

Definition to_json (r : Row.t) : Task.t :=
  Task.mk (Row.id r) (Row.title r) (Row.description r) (Row.dueDate r)
    (Row.priority r) (Row.tags r) (Boolean (Row.completed r))
    (Row.createdAt r) (Row.updatedAt r).

(** [SELECT * FROM tasks WHERE id = ?] with [.get]. *)
Definition select_by_id (db : table) (id : string) : option Row.t :=
  find (fun r => Row.id r =? id) db.

(** [INSERT INTO tasks ... VALUES ...]: [id] is the PRIMARY KEY, so the
    statement throws ([None]) when the key is taken. *)
Definition insert_row (db : table) (r : Row.t) : option table :=
  match select_by_id db (Row.id r) with
  | Some _ => None
  | None => Some (db ++ [r])
  end.

(** [UPDATE tasks SET ... WHERE id = ?]. *)
Definition update_where_id (db : table) (id : string) (f : Row.t -> Row.t)
  : table :=
  map (fun r => if Row.id r =? id then f r else r) db.

(** [DELETE FROM tasks WHERE id = ?]; the second component is
    [result.changes]. *)
Definition delete_where_id (db : table) (id : string) : table * nat :=
  (filter (fun r => negb (Row.id r =? id)) db,
   List.length (filter (fun r => Row.id r =? id) db)).

(** ** The SQL expressions the handlers use *)

(** ASCII case folding, the only folding the LIKE operator performs. *)
Definition to_lower (c : ascii) : ascii :=
  let n := nat_of_ascii c in
  if Nat.leb 65 n && Nat.leb n 90 then ascii_of_nat (n + 32) else c.

Arguments to_lower : simpl never.

(** [s LIKE pat] without ESCAPE: [%] matches any run of characters, [_]
    any single character, every other character itself up to ASCII case.
    SQLite reads pattern and text as C strings: this is its LIKE on strings
    without the character U+0000, at which it would stop reading. *)
Fixpoint like (pat : string) : string -> bool :=
  match pat with
  | EmptyString =>
      fun s => match s with EmptyString => true | String _ _ => false end
  | String c pat' =>
      if Ascii.eqb c "%" then
        fix any (s : string) : bool :=
          like pat' s ||
          match s with
          | EmptyString => false
          | String _ s' => any s'
          end
      else
        fun s =>
          match s with
          | EmptyString => false
          | String d s' =>
              (Ascii.eqb c "_" || Ascii.eqb (to_lower c) (to_lower d))
              && like pat' s'
          end
  end.

(** Lexicographic combination of two ORDER BY terms. *)
Definition lex (c1 c2 : comparison) : comparison :=
  match c1 with
  | Eq => c2
  | _ => c1
  end.

(** Comparison of nullable values: NULL sorts before every value. *)
Definition compare_null {A : Type} (cmp : A -> A -> comparison)
  (x y : option A) : comparison :=
  match x, y with
  | None, None => Eq
  | None, Some _ => Lt
  | Some _, None => Gt
  | Some a, Some b => cmp a b
  end.

(** [CASE WHEN dueDate IS NULL THEN 1 ELSE 0 END]. *)
Definition due_is_null (r : Row.t) : nat :=
  match Row.dueDate r with
  | None => 1
  | Some _ => 0
  end.

(** [CASE priority WHEN 'high' THEN 1 WHEN 'medium' THEN 2 WHEN 'low' THEN 3
    END]: NULL for any other text. *)
Definition priority_rank (p : string) : option nat :=
  if p =? "high" then Some 1
  else if p =? "medium" then Some 2
  else if p =? "low" then Some 3
  else None.

(** [ORDER BY CASE WHEN dueDate IS NULL THEN 1 ELSE 0 END, dueDate ASC];
    TEXT values compare bytewise (BINARY collation). *)
Definition order_dueDate (r1 r2 : Row.t) : comparison :=
  lex (Nat.compare (due_is_null r1) (due_is_null r2))
      (compare_null String.compare (Row.dueDate r1) (Row.dueDate r2)).

Definition order_priority (r1 r2 : Row.t) : comparison :=
  compare_null Nat.compare
    (priority_rank (Row.priority r1)) (priority_rank (Row.priority r2)).

(** [ORDER BY createdAt DESC]. *)
Definition order_createdAt (r1 r2 : Row.t) : comparison :=
  String.compare (Row.createdAt r2) (Row.createdAt r1).

Definition order_default (r1 r2 : Row.t) : comparison :=
  lex (order_dueDate r1 r2) (lex (order_priority r1 r2) (order_createdAt r1 r2)).

(** The sorter: rows that compare equal keep their rowid order. *)
Fixpoint insert_by {A : Type} (cmp : A -> A -> comparison) (x : A)
  (l : list A) : list A :=
  match l with
  | [] => [x]
  | y :: l' =>
      match cmp x y with
      | Gt => y :: insert_by cmp x l'
      | _ => x :: l
      end
  end.

Definition order_by {A : Type} (cmp : A -> A -> comparison) (l : list A)
  : list A :=
  fold_right (insert_by cmp) [] l.

(** What the sorter needs of an ORDER BY term: the three-way comparison is
    antisymmetric, compatible with its own ties, and transitive. *)
Class Order {A : Type} (cmp : A -> A -> comparison) : Prop := {
  cmp_antisym : forall x y, cmp y x = CompOpp (cmp x y);
  cmp_eq_l : forall x y z, cmp x y = Eq -> cmp x z = cmp y z;
  cmp_lt_trans : forall x y z, cmp x y = Lt -> cmp y z = Lt -> cmp x z = Lt
}.

(** [x] is not after [y]. *)
Definition le_by {A : Type} (cmp : A -> A -> comparison) (x y : A) : Prop :=
  cmp x y <> Gt.

(** ** Requests and responses *)

Module Query.
(** [req.query] of GET /api/tasks. *)
Record t : Type := mk {
  status : field string;
  priority : field string;
  search : field string;
  sortBy : field string
}.
End Query.

Module Body.
(** [req.body] of POST /api/tasks and PUT /api/tasks/:id, with every
    property absent, [null] or of the type the Task shape gives it. A
    property of another JSON type (a number for [title], say, whose
    [.trim()] would throw) is not a value of this record. *)
Record t : Type := mk {
  title : field string;
  description : field string;
  dueDate : field string;
  priority : field string;
  tags : field (list string);
  completed : field bool
}.
End Body.

Module Bulk.
(** [req.body] of POST /api/tasks/bulk; [taskIds] is [Val] exactly when it
    is an array, and its elements are ids, that is strings. An element the
    statement cannot bind, on which [run] would throw in the middle of the
    loop, is not a value of this record. *)
Record t : Type := mk {
  action : field string;
  taskIds : field (list string)
}.
End Bulk.

Inductive payload : Type :=
| TaskList (tasks : list Task.t)
| TaskJson (task : Task.t)
| Deleted (message : string) (id : string)
| BulkDone (message : string) (count : nat).

(** [res.status(n).json(...)]; [Error] is a body [{ error }]. *)
Inductive response : Type :=
| Json (status : nat) (body : payload)
| Error (status : nat) (error : string).

Definition priorities : list string := ["low"; "medium"; "high"].

(** ** The route handlers

    Each handler maps the table and the request to the table after the
    request and the response. An exception inside a handler's [try] block
    leaves the [catch] branch to answer 500. *)

(** *** GET /api/tasks *)

Definition where_status (status : field string) (r : Row.t) : bool :=
  if strict_eq status "active" then Z.eqb (Row.completed r) 0
  else if strict_eq status "completed" then Z.eqb (Row.completed r) 1
  else true.

Definition where_priority (priority : field string) (r : Row.t) : bool :=
  match priority with
  | Val p => if truthy priority then Row.priority r =? p else true
  | _ => true
  end.

(** [title LIKE ? OR description LIKE ?] with both parameters
    [`%${search}%`]. *)
Definition where_search (search : field string) (r : Row.t) : bool :=
  match search with
  | Val s =>
      if truthy search then
        like ("%" ++ s ++ "%") (Row.title r)
        || like ("%" ++ s ++ "%") (Row.description r)
      else true
  | _ => true
  end.

Definition order_clause (sortBy : field string)
  : Row.t -> Row.t -> comparison :=
  if strict_eq sortBy "dueDate" then order_dueDate
  else if strict_eq sortBy "priority" then order_priority
  else if strict_eq sortBy "createdAt" then order_createdAt
  else order_default.

Definition get_tasks (db : table) (query : Query.t) : table * response :=
  let status := Query.status query in
  let priority := Query.priority query in
  let search := Query.search query in
  let sortBy := with_default (Val "default") (Query.sortBy query) in
  let tasks :=
    order_by (order_clause sortBy)
      (filter (fun r => where_status status r && where_priority priority r
                        && where_search search r) db) in
  (db, Json 200 (TaskList (map to_json tasks))).

Section Handlers.

(** [Date_parse_ok s] is [!isNaN(Date.parse(s))]. *)
Variable Date_parse_ok : string -> bool.

(** *** POST /api/tasks *)

(** [!title || typeof title !== 'string' || title.trim() === ''] *)
Definition create_title_invalid (title : field string) : bool :=
  negb (truthy title)
  || negb (typeof_string title)
  || match call_trim title with
     | Some s => s =? ""
     | None => false
     end.

(** [dueDate && isNaN(Date.parse(dueDate))] *)
Definition create_dueDate_invalid (dueDate : field string) : bool :=
  truthy dueDate
  && match dueDate with
     | Val s => negb (Date_parse_ok s)
     | _ => false
     end.

Definition bind_nullable {A : Type} (x : field A) : option A :=
  match x with
  | Val a => Some a
  | _ => None
  end.

(** After the three checks [title] and [priority] are strings; a [null]
    description makes [description.trim()] throw, and a taken primary key
    makes the INSERT throw. *)
Definition post_tasks (db : table) (body : Body.t) (uuid now : string)
  : table * response :=
  let title := Body.title body in
  let description := with_default (Val "") (Body.description body) in
  let dueDate := with_default Null (Body.dueDate body) in
  let priority := with_default (Val "medium") (Body.priority body) in
  let tags := with_default (Val []) (Body.tags body) in
  if create_title_invalid title then
    (db, Error 400 "Task title is required and cannot be empty")
  else if negb (includes priorities priority) then
    (db, Error 400 "Priority must be low, medium, or high")
  else if create_dueDate_invalid dueDate then
    (db, Error 400 "Invalid due date format")
  else
    match title, description, priority with
    | Val t, Val d, Val p =>
        let row :=
          Row.mk uuid (trim t) (trim d) (bind_nullable dueDate) p
            (bind_nullable tags) 0%Z now now in
        match insert_row db row with
        | Some db' =>
            match select_by_id db' uuid with
            | Some newTask => (db', Json 201 (TaskJson (to_json newTask)))
            | None => (db', Error 500 "Failed to create task")
            end
        | None => (db, Error 500 "Failed to create task")
        end
    | _, _, _ => (db, Error 500 "Failed to create task")
    end.

(** *** PUT /api/tasks/:id *)

(** [title !== undefined && (!title || title.trim() === '')] *)
Definition update_title_invalid (title : field string) : bool :=
  negb (is_undefined title)
  && (negb (truthy title)
      || match call_trim title with
         | Some s => s =? ""
         | None => false
         end).

(** [priority !== undefined && !['low','medium','high'].includes(priority)] *)
Definition update_priority_invalid (priority : field string) : bool :=
  negb (is_undefined priority) && negb (includes priorities priority).

(** [dueDate !== undefined && dueDate !== null && isNaN(Date.parse(dueDate))] *)
Definition update_dueDate_invalid (dueDate : field string) : bool :=
  match dueDate with
  | Val s => negb (Date_parse_ok s)
  | _ => false
  end.

(** The SET list built from the supplied properties, followed by
    [updatedAt = ?]. The handler reaches it with [title] and [priority]
    absent or strings (the checks before it answer 400 on [null]) and with
    a [description] that is not [null] (its [.trim()] would throw). *)
Definition set_clause (body : Body.t) (now : string) (r : Row.t) : Row.t :=
  Row.mk
    (Row.id r)
    (match Body.title body with
     | Val s => trim s
     | _ => Row.title r
     end)
    (match Body.description body with
     | Val s => trim s
     | _ => Row.description r
     end)
    (match Body.dueDate body with
     | Undefined => Row.dueDate r
     | x => bind_nullable x
     end)
    (match Body.priority body with
     | Val p => p
     | _ => Row.priority r
     end)
    (match Body.tags body with
     | Undefined => Row.tags r
     | x => bind_nullable x
     end)
    (match Body.completed body with
     | Undefined => Row.completed r
     | Val true => 1%Z
     | _ => 0%Z
     end)
    (Row.createdAt r)
    now.

Definition put_task (db : table) (id : string) (body : Body.t) (now : string)
  : table * response :=
  match select_by_id db id with
  | None => (db, Error 404 "Task not found")
  | Some _ =>
      if update_title_invalid (Body.title body) then
        (db, Error 400 "Task title cannot be empty")
      else if update_priority_invalid (Body.priority body) then
        (db, Error 400 "Priority must be low, medium, or high")
      else if update_dueDate_invalid (Body.dueDate body) then
        (db, Error 400 "Invalid due date format")
      else
        match Body.description body with
        | Null => (db, Error 500 "Failed to update task")
        | _ =>
            let db' := update_where_id db id (set_clause body now) in
            match select_by_id db' id with
            | Some updatedTask =>
                (db', Json 200 (TaskJson (to_json updatedTask)))
            | None => (db', Error 500 "Failed to update task")
            end
        end
  end.

End Handlers.

(** *** PATCH /api/tasks/:id/toggle *)

Definition set_completed (c : Z) (now : string) (r : Row.t) : Row.t :=
  Row.mk (Row.id r) (Row.title r) (Row.description r) (Row.dueDate r)
    (Row.priority r) (Row.tags r) c (Row.createdAt r) now.

Definition patch_toggle (db : table) (id : string) (now : string)
  : table * response :=
  match select_by_id db id with
  | None => (db, Error 404 "Task not found")
  | Some existingTask =>
      let newCompletedStatus :=
        if Boolean (Row.completed existingTask) then 0%Z else 1%Z in
      let db' := update_where_id db id (set_completed newCompletedStatus now) in
      match select_by_id db' id with
      | Some updatedTask => (db', Json 200 (TaskJson (to_json updatedTask)))
      | None => (db', Error 500 "Failed to toggle task")
      end
  end.

(** *** DELETE /api/tasks/:id *)

Definition delete_task (db : table) (id : string) : table * response :=
  match select_by_id db id with
  | None => (db, Error 404 "Task not found")
  | Some _ =>
      let (db', changes) := delete_where_id db id in
      if Nat.ltb 0 changes then
        (db', Json 200 (Deleted "Task deleted successfully" id))
      else (db', Error 404 "Task not found")
  end.

(** *** POST /api/tasks/bulk *)

(** [taskIds.forEach(id => stmt.run(...))] *)
Definition for_each (stmt : table -> string -> table) (taskIds : list string)
  (db : table) : table :=
  fold_left stmt taskIds db.

Definition post_bulk (db : table) (body : Bulk.t) (now : string)
  : table * response :=
  match Bulk.taskIds body with
  | Val (id0 :: ids) =>
      let taskIds := id0 :: ids in
      let n := List.length taskIds in
      let action := Bulk.action body in
      if strict_eq action "complete" then
        (for_each (fun d id => update_where_id d id (set_completed 1 now))
           taskIds db,
         Json 200 (BulkDone (nat_to_string n ++ " tasks updated") n))
      else if strict_eq action "uncomplete" then
        (for_each (fun d id => update_where_id d id (set_completed 0 now))
           taskIds db,
         Json 200 (BulkDone (nat_to_string n ++ " tasks updated") n))
      else if strict_eq action "delete" then
        (for_each (fun d id => fst (delete_where_id d id)) taskIds db,
         Json 200 (BulkDone (nat_to_string n ++ " tasks deleted") n))
      else
        (db, Error 400 "Invalid action. Must be complete, uncomplete, or delete")
  | _ => (db, Error 400 "taskIds must be a non-empty array")
  end.

(** ** The task state hook ([useTasks])

    The hook's callbacks are programs over three kinds of effect: the React
    state setters, reads of the state captured by the closure, and awaited
    calls of the API client (module [utils/apiClient], whose functions are
    the constructors of [api_call]). A rejected promise re-enters the
    program as the thrown [err.message]. *)

Module Updates.
(** The [updates] object of [updateTask]: a partial task. *)
Record t : Type := mk {
  title : option string;
  description : option string;
  dueDate : option (option string);
  priority : option string;
  tags : option (option (list string));
  completed : option bool
}.
End Updates.

Module Filters.
Record t : Type := mk {
  status : string;
  priority : option string;
  search : string;
  sortBy : string
}.
End Filters.

Inductive api_call : Type -> Type :=
| getTasks (filterParams : Query.t) : api_call (list Task.t)
| createTask (taskData : Body.t) : api_call Task.t
| updateTask (id : string) (updates : Updates.t) : api_call Task.t
| toggleTask (id : string) : api_call Task.t
| deleteTask (id : string) : api_call unit
| bulkAction (action : string) (taskIds : list string) : api_call unit.

Inductive prog (R : Type) : Type :=
| Return (r : R)
| Throw (message : string)
| SetTasks (updater : list Task.t -> list Task.t) (k : prog R)
| SetLoading (b : bool) (k : prog R)
| SetError (e : option string) (k : prog R)
| ReadTasks (k : list Task.t -> prog R)
| ReadFilters (k : Filters.t -> prog R)
| Await (A : Type) (call : api_call A) (k : A + string -> prog R).

Arguments Return {R} _.
Arguments Throw {R} _.
Arguments SetTasks {R} _ _.
Arguments SetLoading {R} _ _.
Arguments SetError {R} _ _.
Arguments ReadTasks {R} _.
Arguments ReadFilters {R} _.
Arguments Await {R A} _ _.

Fixpoint bind {A B : Type} (p : prog A) (f : A -> prog B) : prog B :=
  match p with
  | Return r => f r
  | Throw m => Throw m
  | SetTasks u k => SetTasks u (bind k f)
  | SetLoading b k => SetLoading b (bind k f)
  | SetError e k => SetError e (bind k f)
  | ReadTasks k => ReadTasks (fun ts => bind (k ts) f)
  | ReadFilters k => ReadFilters (fun fs => bind (k fs) f)
  | Await c k => Await c (fun r => bind (k r) f)
  end.

(** [try { p } catch (err) { handler(err.message) }] *)
Fixpoint try_catch {R : Type} (p : prog R) (handler : string -> prog R)
  : prog R :=
  match p with
  | Return r => Return r
  | Throw m => handler m
  | SetTasks u k => SetTasks u (try_catch k handler)
  | SetLoading b k => SetLoading b (try_catch k handler)
  | SetError e k => SetError e (try_catch k handler)
  | ReadTasks k => ReadTasks (fun ts => try_catch (k ts) handler)
  | ReadFilters k => ReadFilters (fun fs => try_catch (k fs) handler)
  | Await c k => Await c (fun r => try_catch (k r) handler)
  end.

Definition setTasks (u : list Task.t -> list Task.t) : prog unit :=
  SetTasks u (Return tt).
Definition setLoading (b : bool) : prog unit := SetLoading b (Return tt).
Definition setError (e : option string) : prog unit := SetError e (Return tt).
Definition await {A : Type} (c : api_call A) : prog A :=
  Await c (fun r => match r with inl a => Return a | inr m => Throw m end).

Declare Scope prog_scope.
Delimit Scope prog_scope with prog.
Notation "x <- p ;; q" := (bind p (fun x => q))
  (at level 61, p at next level, right associativity) : prog_scope.
Notation "p ;; q" := (bind p (fun _ => q))
  (at level 61, right associativity) : prog_scope.

(** [{ ...task, ...updates }] *)
Definition spread (task : Task.t) (updates : Updates.t) : Task.t :=
  let pick {A : Type} (o : option A) (d : A) : A :=
    match o with Some v => v | None => d end in
  Task.mk (Task.id task)
    (pick (Updates.title updates) (Task.title task))
    (pick (Updates.description updates) (Task.description task))
    (pick (Updates.dueDate updates) (Task.dueDate task))
    (pick (Updates.priority updates) (Task.priority task))
    (pick (Updates.tags updates) (Task.tags task))
    (pick (Updates.completed updates) (Task.completed task))
    (Task.createdAt task) (Task.updatedAt task).

Definition set_task_completed (task : Task.t) (c : bool) : Task.t :=
  Task.mk (Task.id task) (Task.title task) (Task.description task)
    (Task.dueDate task) (Task.priority task) (Task.tags task) c
    (Task.createdAt task) (Task.updatedAt task).

Local Open Scope prog_scope.

Definition fetchTasks : prog unit :=
  try_catch
    (setLoading true ;;
     setError None ;;
     ReadFilters (fun filters =>
       let filterParams :=
         Query.mk
           (if negb (Filters.status filters =? "all")
            then Val (Filters.status filters) else Undefined)
           (match Filters.priority filters with
            | Some p => if truthy (Val p) then Val p else Undefined
            | None => Undefined
            end)
           (if truthy (Val (Filters.search filters))
            then Val (Filters.search filters) else Undefined)
           (if truthy (Val (Filters.sortBy filters))
            then Val (Filters.sortBy filters) else Undefined) in
       fetchedTasks <- await (getTasks filterParams) ;;
       setTasks (fun _ => fetchedTasks)))
    (fun message => setError (Some message)) ;;
  setLoading false.

Definition addTask (taskData : Body.t) : prog Task.t :=
  try_catch
    (setError None ;;
     newTask <- await (createTask taskData) ;;
     setTasks (fun prev => newTask :: prev) ;;
     Return newTask)
    (fun message => setError (Some message) ;; Throw message).

Definition updateTaskData (id : string) (updates : Updates.t)
  : prog Task.t :=
  try_catch
    (setError None ;;
     setTasks (fun prev =>
       map (fun task =>
              if Task.id task =? id then spread task updates else task)
           prev) ;;
     updatedTask <- await (updateTask id updates) ;;
     setTasks (fun prev =>
       map (fun task => if Task.id task =? id then updatedTask else task)
           prev) ;;
     Return updatedTask)
    (fun message => setError (Some message) ;; fetchTasks ;; Throw message).

Definition toggleTaskCompletion (id : string) : prog Task.t :=
  try_catch
    (setError None ;;
     setTasks (fun prev =>
       map (fun task =>
              if Task.id task =? id
              then set_task_completed task (negb (Task.completed task))
              else task)
           prev) ;;
     updatedTask <- await (toggleTask id) ;;
     setTasks (fun prev =>
       map (fun task => if Task.id task =? id then updatedTask else task)
           prev) ;;
     Return updatedTask)
    (fun message => setError (Some message) ;; fetchTasks ;; Throw message).

Definition removeTask (id : string) : prog (option Task.t) :=
  try_catch
    (setError None ;;
     ReadTasks (fun tasks =>
       let taskToDelete := find (fun task => Task.id task =? id) tasks in
       setTasks (fun prev =>
         filter (fun task => negb (Task.id task =? id)) prev) ;;
       await (deleteTask id) ;;
       Return taskToDelete))
    (fun message => setError (Some message) ;; fetchTasks ;; Throw message).

Definition performBulkAction (action : string) (taskIds : list string)
  : prog unit :=
  try_catch
    (setError None ;;
     await (bulkAction action taskIds) ;;
     fetchTasks)
    (fun message => setError (Some message) ;; Throw message).

Local Close Scope prog_scope.

(** Running a callback: the React state it leaves, the effects in the
    order the callback performed them, and its result or thrown message. *)

Module HookState.
Record t : Type := mk {
  tasks : list Task.t;
  loading : bool;
  error : option string;
  filters : Filters.t
}.
End HookState.

Inductive event : Type :=
| EvSetTasks (after : list Task.t)
| EvSetLoading (b : bool)
| EvSetError (e : option string)
| EvApi (A : Type) (call : api_call A).

Arguments EvApi {A} _.

(** The other end of the API client: how each call settles. *)
Definition server : Type := forall A : Type, api_call A -> A + string.

Fixpoint run {R : Type} (api : server) (p : prog R) (st : HookState.t)
  : HookState.t * list event * (R + string) :=
  match p with
  | Return r => (st, [], inl r)
  | Throw m => (st, [], inr m)
  | SetTasks u k =>
      let after := u (HookState.tasks st) in
      let st' := HookState.mk after (HookState.loading st)
                   (HookState.error st) (HookState.filters st) in
      let '(s, tr, r) := run api k st' in
      (s, EvSetTasks after :: tr, r)
  | SetLoading b k =>
      let st' := HookState.mk (HookState.tasks st) b
                   (HookState.error st) (HookState.filters st) in
      let '(s, tr, r) := run api k st' in
      (s, EvSetLoading b :: tr, r)
  | SetError e k =>
      let st' := HookState.mk (HookState.tasks st) (HookState.loading st)
                   e (HookState.filters st) in
      let '(s, tr, r) := run api k st' in
      (s, EvSetError e :: tr, r)
  | ReadTasks k => run api (k (HookState.tasks st)) st
  | ReadFilters k => run api (k (HookState.filters st)) st
  | Await c k =>
      let '(s, tr, r) := run api (k (api _ c)) st in
      (s, EvApi c :: tr, r)
  end.

Definition trace {R : Type} (api : server) (p : prog R) (st : HookState.t)
  : list event :=
  snd (fst (run api p st)).

(** Does the callback touch the local task collection before its first
    API call? *)
Fixpoint set_before_call (tr : list event) : bool :=
  match tr with
  | [] => false
  | EvSetTasks _ :: _ => true
  | EvApi _ :: _ => false
  | _ :: tr' => set_before_call tr'
  end.

(** ** Notions of the specification *)

(** A validation error is a 400 response. *)
Definition is_validation_error (r : response) : bool :=
  match r with
  | Error status _ => Nat.eqb status 400
  | Json _ _ => false
  end.

Fixpoint all_ws (s : string) : bool :=
  match s with
  | EmptyString => true
  | String c s' => is_ws c && all_ws s'
  end.

Definition first_char (s : string) : option ascii :=
  match s with
  | EmptyString => None
  | String c _ => Some c
  end.

Fixpoint last_char (s : string) : option ascii :=
  match s with
  | EmptyString => None
  | String c EmptyString => Some c
  | String _ s' => last_char s'
  end.

Definition not_ws (o : option ascii) : Prop :=
  match o with
  | Some c => is_ws c = false
  | None => True
  end.

(** [t] is [s] with its leading and trailing whitespace removed. *)
Definition stripped (s t : string) : Prop :=
  exists l r : string,
    s = (l ++ t ++ r)%string /\ all_ws l = true /\ all_ws r = true
    /\ not_ws (first_char t) /\ not_ws (last_char t).

(** The title is missing, empty or whitespace-only. *)
Definition title_blank (title : field string) : bool :=
  match title with
  | Val s => all_ws s
  | _ => true
  end.

(** A priority was supplied and is outside the enum. *)
Definition priority_outside_enum (priority : field string) : bool :=
  match priority with
  | Undefined => false
  | Null => true
  | Val p => negb ((p =? "low") || (p =? "medium") || (p =? "high"))
  end.

(** The due date is present, non-null and does not parse. *)
Definition dueDate_unparsable (parse_ok : string -> bool)
  (dueDate : field string) : bool :=
  match dueDate with
  | Val s => negb (parse_ok s)
  | _ => false
  end.


(** Case-insensitive substring, as the requirements document and the
    frontend's mock server have it
    ([t.title.toLowerCase().includes(search.toLowerCase())]). *)
Fixpoint lower (s : string) : string :=
  match s with
  | EmptyString => EmptyString
  | String c s' => String (to_lower c) (lower s')
  end.

Definition ci_substring (needle hay : string) : Prop :=
  exists l m r : string,
    hay = (l ++ m ++ r)%string /\ lower m = lower needle.

Fixpoint ci_prefixb (needle hay : string) : bool :=
  match needle with
  | EmptyString => true
  | String c needle' =>
      match hay with
      | EmptyString => false
      | String d hay' =>
          Ascii.eqb (to_lower c) (to_lower d) && ci_prefixb needle' hay'
      end
  end.

Fixpoint ci_substringb (needle hay : string) : bool :=
  ci_prefixb needle hay
  || match hay with
     | EmptyString => false
     | String _ hay' => ci_substringb needle hay'
     end.

Fixpoint has_wildcard (s : string) : bool :=
  match s with
  | EmptyString => false
  | String c s' => Ascii.eqb c "%" || Ascii.eqb c "_" || has_wildcard s'
  end.

(** A stand-in for the engine's [Date.parse] in the closed examples: it
    accepts the shape [toISOString] produces, [YYYY-MM-DDTHH:mm:ss.sssZ]
    with the month in 01-12, the day in 01-28, the hour below 24 and minute
    and second below 60 -- strings every engine parses -- and nothing else. *)
Definition is_digit (c : ascii) : bool :=
  let n := nat_of_ascii c in Nat.leb 48 n && Nat.leb n 57.

Fixpoint has_shape (shape s : string) : bool :=
  match shape, s with
  | EmptyString, EmptyString => true
  | String p shape', String c s' =>
      (if Ascii.eqb p "d" then is_digit c else Ascii.eqb p c)
      && has_shape shape' s'
  | _, _ => false
  end.

Definition two_digits (s : string) (pos : nat) : nat :=
  match String.get pos s, String.get (S pos) s with
  | Some a, Some b => 10 * (nat_of_ascii a - 48) + (nat_of_ascii b - 48)
  | _, _ => 0
  end.

Definition iso_parse_ok (s : string) : bool :=
  has_shape "dddd-dd-ddTdd:dd:dd.dddZ" s
  && Nat.leb 1 (two_digits s 5) && Nat.leb (two_digits s 5) 12
  && Nat.leb 1 (two_digits s 8) && Nat.leb (two_digits s 8) 28
  && Nat.leb (two_digits s 11) 23
  && Nat.leb (two_digits s 14) 59
  && Nat.leb (two_digits s 17) 59.

(** A sample body and sample rows for the closed examples. *)
Definition body_with (title : field string) (dueDate : field string)
  (priority : field string) : Body.t :=
  Body.mk title Undefined dueDate priority Undefined Undefined.

Definition sample_row (id title : string) (dueDate : option string)
  (priority : string) (completed : Z) (stamp : string) : Row.t :=
  Row.mk id title "" dueDate priority (Some []) completed stamp stamp.

Definition stamp0 : string := "2024-01-15T10:00:00.000Z".
Definition stamp1 : string := "2024-01-16T08:00:00.000Z".
Definition stamp2 : string := "2024-01-16T08:00:00.250Z".

(** The table as the server seeds it ([initialTasks]), with fixed ids. *)
Definition sample_db : table :=
  [ sample_row "t1" "Complete project documentation"
      (Some "2024-01-16T10:00:00.000Z") "high" 0 stamp0;
    sample_row "t2" "Review pull requests" None "medium" 0 stamp0;
    sample_row "t3" "Update dependencies" None "low" 0 stamp0 ].

(** Five rows whose rowid order differs from every sort order. *)
Definition sorting_db : table :=
  [ sample_row "a" "No date, low" None "low" 0 "2024-01-10T09:00:00.000Z";
    sample_row "b" "Late date" (Some "2024-03-01T09:00:00.000Z") "low" 0
      "2024-01-11T09:00:00.000Z";
    sample_row "c" "No date, high, older" None "high" 0
      "2024-01-12T09:00:00.000Z";
    sample_row "d" "Early date" (Some "2024-02-01T09:00:00.000Z") "medium" 0
      "2024-01-13T09:00:00.000Z";
    sample_row "e" "No date, high, newer" None "high" 1
      "2024-01-14T09:00:00.000Z" ].

Definition no_filters : Query.t :=
  Query.mk Undefined Undefined Undefined Undefined.

(** A server for the closed examples of the hook: it creates "Buy milk"
    and answers every other call of a task with "Task not found". *)
Definition milk : Task.t :=
  Task.mk "t4" "Buy milk" "" None "medium" (Some []) false stamp1 stamp1.

Definition sample_server : server :=
  fun A call =>
    match call in api_call T return T + string with
    | getTasks _ => inl (map to_json sample_db)
    | createTask _ => inl milk
    | updateTask _ _ => inr "Task not found"
    | toggleTask _ => inr "Task not found"
    | deleteTask _ => inl tt
    | bulkAction _ _ => inl tt
    end.

Definition sample_state : HookState.t :=
  HookState.mk (map to_json sample_db) false None
    (Filters.mk "all" None "" "default").

Definition invalid_body : Body.t :=
  body_with (Val "") (Val "not-a-date") (Val "urgent").

(** ** Invariants and observations used by the further properties *)

(** The PRIMARY KEY constraint on [id]. *)
Definition unique_ids (db : table) : Prop := NoDup (map Row.id db).

(** What the handlers write into a row: a title and a description that are
    trimmed, a title that is not blank, a priority of the enum and a
    completion flag that is 0 or 1. *)
Definition row_ok (r : Row.t) : Prop :=
  trim (Row.title r) = Row.title r
  /\ all_ws (Row.title r) = false
  /\ trim (Row.description r) = Row.description r
  /\ In (Row.priority r) priorities
  /\ (Row.completed r = 0%Z \/ Row.completed r = 1%Z).

(** Any response with an [{ error }] body. *)
Definition is_error (r : response) : bool :=
  match r with
  | Error _ _ => true
  | Json _ _ => false
  end.

(** The React state a callback leaves, and what it returns or throws. *)
Definition state_after {R : Type} (api : server) (p : prog R)
  (st : HookState.t) : HookState.t :=
  fst (fst (run api p st)).

Definition outcome {R : Type} (api : server) (p : prog R)
  (st : HookState.t) : R + string :=
  snd (run api p st).

(** [filterParams] as [fetchTasks] builds it from the filter state. *)
Definition filterParams_of (filters : Filters.t) : Query.t :=
  Query.mk
    (if negb (Filters.status filters =? "all")
     then Val (Filters.status filters) else Undefined)
    (match Filters.priority filters with
     | Some p => if truthy (Val p) then Val p else Undefined
     | None => Undefined
     end)
    (if truthy (Val (Filters.search filters))
     then Val (Filters.search filters) else Undefined)
    (if truthy (Val (Filters.sortBy filters))
     then Val (Filters.sortBy filters) else Undefined).

(** A server for the closed examples that rejects every mutation and whose
    list request fails as well. *)
Definition failing_server : server :=
  fun A call =>
    match call in api_call T return T + string with
    | getTasks _ => inr "Network error"
    | createTask _ => inr "Task title is required and cannot be empty"
    | updateTask _ _ => inr "Task not found"
    | toggleTask _ => inr "Task not found"
    | deleteTask _ => inr "Task not found"
    | bulkAction _ _ => inr "Invalid action"
    end.

(** A server for the closed examples that accepts every mutation and
    answers an update or a toggle of [id] with [server_copy id]. *)
Definition server_copy (id : string) : Task.t :=
  Task.mk id "Review pull requests" "" None "low" (Some []) true stamp0
    stamp2.

Definition accepting_server : server :=
  fun A call =>
    match call in api_call T return T + string with
    | getTasks _ => inl (map to_json sample_db)
    | createTask _ => inl milk
    | updateTask id _ => inl (server_copy id)
    | toggleTask id => inl (server_copy id)
    | deleteTask _ => inl tt
    | bulkAction _ _ => inl tt
    end.

(** The JSON of a task, as List or Create answered it, used as the body of
    an Update ([id], [createdAt] and [updatedAt] are not destructured by
    the handler). *)
Definition body_of_task (t : Task.t) : Body.t :=
  Body.mk (Val (Task.title t)) (Val (Task.description t))
    (match Task.dueDate t with Some s => Val s | None => Null end)
    (Val (Task.priority t))
    (match Task.tags t with Some l => Val l | None => Null end)
    (Val (Task.completed t)).

(** The body [{ completed: c }]. *)
Definition completed_only (c : bool) : Body.t :=
  Body.mk Undefined Undefined Undefined Undefined Undefined (Val c).









(** * Properties *)

(** ** The primitives on small inputs *)

Example trim_strips_both_ends :
  trim "   Whitespace task   " = "Whitespace task".
Proof. reflexivity. Qed.

Example trim_of_whitespace_only :
  trim (String (ascii_of_nat 9) (String (ascii_of_nat 10)
          (String " " (String " " (String (ascii_of_nat 13) ""))))) = "".
Proof. reflexivity. Qed.

Example like_ignores_ascii_case : like "%MILK%" "Buy milk" = true.
Proof. reflexivity. Qed.

Example like_needs_the_substring : like "%milk%" "Buy bread" = false.
Proof. reflexivity. Qed.

Example priority_rank_values :
  map priority_rank ["high"; "medium"; "low"; "urgent"]
  = [Some 1; Some 2; Some 3; None].
Proof. reflexivity. Qed.

Example iso_parse_ok_values :
  map iso_parse_ok ["2024-01-15T10:00:00.000Z"; "not-a-date"; ""]
  = [true; false; false].
Proof. reflexivity. Qed.

Example order_by_is_stable :
  order_by (fun x y => Nat.compare (fst x) (fst y))
    [(2, "a"); (1, "b"); (2, "c"); (1, "d")]
  = [(1, "b"); (1, "d"); (2, "a"); (2, "c")].
Proof. reflexivity. Qed.

(** The end-to-end scenario of the specification on an empty table: create
    "Buy milk", find it by search, toggle it, delete it, search again. *)
Example end_to_end_scenario :
  let search_milk := Query.mk Undefined Undefined (Val "milk") Undefined in
  let created :=
    Row.mk "t4" "Buy milk" "" None "medium" (Some []) 0 stamp0 stamp0 in
  let toggled :=
    Row.mk "t4" "Buy milk" "" None "medium" (Some []) 1 stamp0 stamp1 in
  post_tasks iso_parse_ok [] (body_with (Val "Buy milk") Undefined Undefined)
    "t4" stamp0
  = ([created], Json 201 (TaskJson (to_json created)))
  /\ get_tasks [created] search_milk
     = ([created], Json 200 (TaskList [to_json created]))
  /\ patch_toggle [created] "t4" stamp1
     = ([toggled], Json 200 (TaskJson (to_json toggled)))
  /\ delete_task [toggled] "t4"
     = ([], Json 200 (Deleted "Task deleted successfully" "t4"))
  /\ get_tasks [] search_milk = ([], Json 200 (TaskList [])).
Proof. repeat split. Qed.

(** ** The table *)

Lemma select_by_id_some (db : table) (id : string) (r : Row.t) :
  select_by_id db id = Some r -> In r db /\ Row.id r = id.
Proof.
  unfold select_by_id. intros H.
  apply find_some in H. destruct H as [Hin Heq].
  apply String.eqb_eq in Heq. auto.
Qed.

Lemma select_by_id_none (db : table) (id : string) :
  select_by_id db id = None <-> (forall r, In r db -> Row.id r <> id).
Proof.
  unfold select_by_id. split.
  - intros H r Hin Heq.
    pose proof (find_none _ _ H r Hin) as Hf. simpl in Hf.
    rewrite Heq, String.eqb_refl in Hf. discriminate.
  - intros H. induction db as [|r db IH]; simpl; [reflexivity|].
    destruct (Row.id r =? id) eqn:E.
    + apply String.eqb_eq in E. exfalso. apply (H r); simpl; auto.
    + apply IH. intros r' Hin. apply H. simpl; auto.
Qed.

(** An UPDATE whose SET list leaves [id] alone changes the addressed row
    and no other. *)
Lemma select_after_update (db : table) (id id' : string)
  (f : Row.t -> Row.t) :
  (forall r, Row.id (f r) = Row.id r) ->
  select_by_id (update_where_id db id f) id'
  = if id' =? id then option_map f (select_by_id db id)
    else select_by_id db id'.
Proof.
  intros Hid. unfold select_by_id, update_where_id.
  induction db as [|r db IH]; simpl.
  - destruct (id' =? id); reflexivity.
  - destruct (Row.id r =? id) eqn:E.
    + apply String.eqb_eq in E. rewrite Hid, E.
      rewrite (String.eqb_sym id id').
      destruct (id' =? id) eqn:E'; [reflexivity|exact IH].
    + destruct (id' =? id) eqn:E'.
      * apply String.eqb_eq in E'. subst id'. rewrite E. exact IH.
      * destruct (Row.id r =? id'); [reflexivity|exact IH].
Qed.

Lemma select_after_delete (db : table) (id id' : string) :
  select_by_id (fst (delete_where_id db id)) id'
  = if id' =? id then None else select_by_id db id'.
Proof.
  unfold select_by_id, delete_where_id. simpl.
  induction db as [|r db IH]; simpl.
  - destruct (id' =? id); reflexivity.
  - destruct (Row.id r =? id) eqn:E; simpl.
    + rewrite IH. destruct (id' =? id) eqn:E'; [reflexivity|].
      apply String.eqb_eq in E. rewrite E, (String.eqb_sym id id'), E'.
      reflexivity.
    + rewrite IH. destruct (id' =? id) eqn:E'.
      * apply String.eqb_eq in E'. subst id'. rewrite E. reflexivity.
      * reflexivity.
Qed.

Lemma delete_changes_positive (db : table) (id : string) (r : Row.t) :
  select_by_id db id = Some r -> Nat.ltb 0 (snd (delete_where_id db id)) = true.
Proof.
  intros H. apply select_by_id_some in H. destruct H as [Hin Heq].
  unfold delete_where_id. simpl. apply Nat.ltb_lt.
  assert (Hf : In r (filter (fun r0 => Row.id r0 =? id) db)).
  { apply filter_In. split; [exact Hin|]. apply String.eqb_eq. exact Heq. }
  destruct (filter (fun r0 => Row.id r0 =? id) db); simpl in *; [tauto|lia].
Qed.

Lemma delete_where_id_absent (db : table) (id : string) :
  select_by_id db id = None -> fst (delete_where_id db id) = db.
Proof.
  intros H. unfold delete_where_id. simpl.
  rewrite select_by_id_none in H.
  induction db as [|r db IH]; simpl; [reflexivity|].
  destruct (Row.id r =? id) eqn:E.
  - apply String.eqb_eq in E. exfalso. apply (H r); simpl; auto.
  - simpl. f_equal. apply IH. intros r' Hin. apply H. simpl; auto.
Qed.

Lemma update_where_id_absent (db : table) (id : string) (f : Row.t -> Row.t) :
  select_by_id db id = None -> update_where_id db id f = db.
Proof.
  intros H. unfold update_where_id.
  rewrite select_by_id_none in H.
  induction db as [|r db IH]; simpl; [reflexivity|].
  destruct (Row.id r =? id) eqn:E.
  - apply String.eqb_eq in E. exfalso. apply (H r); simpl; auto.
  - f_equal. apply IH. intros r' Hin. apply H. simpl; auto.
Qed.

(** ** Update of a missing id (C10) *)

(** C10. An Update request whose id is not in the table is answered
    404 "Task not found" whatever the body holds -- an empty title, a
    priority outside the enum, an unparsable due date -- and the table is
    left as it was: the existence check comes before validation. *)
Theorem put_task_missing_id_is_not_found (parse_ok : string -> bool)
  (db : table) (id : string) (body : Body.t) (now : string) :
  select_by_id db id = None ->
  put_task parse_ok db id body now = (db, Error 404 "Task not found").
Proof.
  intros H. unfold put_task. rewrite H. reflexivity.
Qed.

Lemma put_task_missing_id_is_not_found_witness :
  select_by_id sample_db "non-existent-id" = None
  /\ update_title_invalid (Body.title invalid_body) = true
  /\ update_priority_invalid (Body.priority invalid_body) = true
  /\ update_dueDate_invalid iso_parse_ok (Body.dueDate invalid_body) = true
  /\ put_task iso_parse_ok sample_db "non-existent-id" invalid_body stamp1
     = (sample_db, Error 404 "Task not found").
Proof.
  split; [reflexivity|].
  split; [reflexivity|]. split; [reflexivity|]. split; [reflexivity|].
  apply put_task_missing_id_is_not_found. reflexivity.
Defined.

(** ** Delete (C6) *)

Lemma delete_task_present (db : table) (id : string) (r : Row.t) :
  select_by_id db id = Some r ->
  delete_task db id
  = (fst (delete_where_id db id),
     Json 200 (Deleted "Task deleted successfully" id)).
Proof.
  intros H. unfold delete_task. rewrite H.
  pose proof (delete_changes_positive db id r H) as Hc.
  destruct (delete_where_id db id) as [db' changes]. simpl in *.
  rewrite Hc. reflexivity.
Qed.

Lemma delete_task_absent (db : table) (id : string) :
  select_by_id db id = None ->
  delete_task db id = (db, Error 404 "Task not found").
Proof.
  intros H. unfold delete_task. rewrite H. reflexivity.
Qed.

(** C6. Delete of an id that is in the table answers 200 and leaves a table
    with exactly the rows of other ids; Delete of an id that is not there
    answers 404 and leaves the table alone. So a second Delete of the same
    id, run on the table the first one left, answers 404. *)
Theorem delete_task_removes_then_not_found (db : table) (id : string) :
  (forall r, select_by_id db id = Some r ->
     exists db',
       delete_task db id
       = (db', Json 200 (Deleted "Task deleted successfully" id))
       /\ select_by_id db' id = None
       /\ (forall r', In r' db' <-> In r' db /\ Row.id r' <> id)
       /\ delete_task db' id = (db', Error 404 "Task not found"))
  /\ (select_by_id db id = None ->
      delete_task db id = (db, Error 404 "Task not found")).
Proof.
  split.
  - intros r H. exists (fst (delete_where_id db id)).
    assert (Hnone : select_by_id (fst (delete_where_id db id)) id = None).
    { rewrite select_after_delete, String.eqb_refl. reflexivity. }
    split; [apply (delete_task_present db id r H)|].
    split; [exact Hnone|]. split.
    + intros r'. unfold delete_where_id. simpl. rewrite filter_In.
      rewrite negb_true_iff, String.eqb_neq. tauto.
    + apply delete_task_absent. exact Hnone.
  - apply delete_task_absent.
Qed.

Lemma delete_task_removes_then_not_found_witness :
  select_by_id sample_db "t2"
  = Some (sample_row "t2" "Review pull requests" None "medium" 0 stamp0)
  /\ exists db',
       delete_task sample_db "t2"
       = (db', Json 200 (Deleted "Task deleted successfully" "t2"))
       /\ select_by_id db' "t2" = None
       /\ (forall r', In r' db' <-> In r' sample_db /\ Row.id r' <> "t2")
       /\ delete_task db' "t2" = (db', Error 404 "Task not found").
Proof.
  split; [reflexivity|].
  exact (proj1 (delete_task_removes_then_not_found sample_db "t2")
           _ eq_refl).
Defined.

(** ** Toggle (C5) *)

Lemma set_completed_id (c : Z) (now : string) (r : Row.t) :
  Row.id (set_completed c now r) = Row.id r.
Proof. reflexivity. Qed.

Lemma patch_toggle_present (db : table) (id : string) (r : Row.t)
  (now : string) :
  select_by_id db id = Some r ->
  let r' := set_completed (if Boolean (Row.completed r) then 0 else 1) now r in
  let db' := update_where_id db id
               (set_completed (if Boolean (Row.completed r) then 0 else 1) now)
  in
  patch_toggle db id now = (db', Json 200 (TaskJson (to_json r')))
  /\ select_by_id db' id = Some r'.
Proof.
  intros H r' db'. unfold patch_toggle. rewrite H. fold db'.
  assert (Hsel : select_by_id db' id = Some r').
  { unfold db'. rewrite select_after_update by apply set_completed_id.
    rewrite String.eqb_refl, H. reflexivity. }
  rewrite Hsel. auto.
Qed.

(** C5 (amended). Two Toggles of a task that exists both succeed; the first
    answers the negated [completed] value and the second the original one.
    Each Toggle writes the clock reading it was given into [updatedAt], so
    [updatedAt] grows strictly across a Toggle whenever that reading is
    strictly later than the stored one. *)
Theorem patch_toggle_twice (db : table) (id : string) (r : Row.t)
  (now1 now2 : string) :
  select_by_id db id = Some r ->
  exists db1 db2 t1 t2,
    patch_toggle db id now1 = (db1, Json 200 (TaskJson t1))
    /\ patch_toggle db1 id now2 = (db2, Json 200 (TaskJson t2))
    /\ Task.completed t1 = negb (Task.completed (to_json r))
    /\ Task.completed t2 = Task.completed (to_json r)
    /\ Task.updatedAt t1 = now1
    /\ Task.updatedAt t2 = now2
    /\ (String.ltb (Row.updatedAt r) now1 = true ->
        String.ltb (Task.updatedAt (to_json r)) (Task.updatedAt t1) = true)
    /\ (String.ltb now1 now2 = true ->
        String.ltb (Task.updatedAt t1) (Task.updatedAt t2) = true).
Proof.
  intros H.
  destruct (patch_toggle_present db id r now1 H) as [E1 S1].
  destruct (patch_toggle_present _ id _ now2 S1) as [E2 _].
  do 4 eexists.
  split; [exact E1|]. split; [exact E2|].
  simpl. unfold Boolean.
  destruct (Row.completed r =? 0)%Z; simpl; auto 10.
Qed.

Lemma patch_toggle_twice_witness :
  select_by_id sample_db "t2"
  = Some (sample_row "t2" "Review pull requests" None "medium" 0 stamp0)
  /\ exists db1 db2 t1 t2,
    patch_toggle sample_db "t2" stamp1 = (db1, Json 200 (TaskJson t1))
    /\ patch_toggle db1 "t2" stamp2 = (db2, Json 200 (TaskJson t2))
    /\ Task.completed t1 = true
    /\ Task.completed t2 = false
    /\ Task.updatedAt t1 = stamp1
    /\ Task.updatedAt t2 = stamp2
    /\ (String.ltb stamp0 stamp1 = true ->
        String.ltb stamp0 (Task.updatedAt t1) = true)
    /\ (String.ltb stamp1 stamp2 = true ->
        String.ltb (Task.updatedAt t1) (Task.updatedAt t2) = true).
Proof.
  split; [reflexivity|].
  exact (patch_toggle_twice sample_db "t2" _ stamp1 stamp2 eq_refl).
Defined.

(** C5, as stated, fails: a Toggle that runs in the millisecond the stored
    [updatedAt] was written answers the same [updatedAt]. *)
Lemma patch_toggle_same_millisecond :
  select_by_id sample_db "t2"
  = Some (sample_row "t2" "Review pull requests" None "medium" 0 stamp0)
  /\ snd (patch_toggle sample_db "t2" stamp0)
     = Json 200 (TaskJson (to_json
         (sample_row "t2" "Review pull requests" None "medium" 1 stamp0)))
  /\ String.ltb stamp0 stamp0 = false.
Proof. repeat split. Qed.

(** ** Partial update (C4) *)

Lemma set_clause_id (body : Body.t) (now : string) (r : Row.t) :
  Row.id (set_clause body now r) = Row.id r.
Proof. reflexivity. Qed.

(** A request that passes the three checks and carries no [null]
    description is answered 200 with the row the SET list produces. *)
Lemma put_task_valid (parse_ok : string -> bool) (db : table) (id : string)
  (r : Row.t) (body : Body.t) (now : string) :
  select_by_id db id = Some r ->
  update_title_invalid (Body.title body) = false ->
  update_priority_invalid (Body.priority body) = false ->
  update_dueDate_invalid parse_ok (Body.dueDate body) = false ->
  Body.description body <> Null ->
  put_task parse_ok db id body now
  = (update_where_id db id (set_clause body now),
     Json 200 (TaskJson (to_json (set_clause body now r)))).
Proof.
  intros H Ht Hp Hd Hdesc. unfold put_task.
  rewrite H, Ht, Hp, Hd.
  rewrite select_after_update by apply set_clause_id.
  rewrite String.eqb_refl, H. simpl.
  destruct (Body.description body); congruence.
Qed.

(** C4. A valid Update of a task that exists is answered 200 with a record
    in which every property the body does not supply has the value it had,
    every supplied property has the supplied value (title and description
    trimmed), [id] and [createdAt] are as before and [updatedAt] is the
    clock reading of this request; rows of other ids are untouched. *)
Theorem put_task_keeps_omitted_fields (parse_ok : string -> bool)
  (db : table) (id : string) (r : Row.t) (body : Body.t) (now : string) :
  select_by_id db id = Some r ->
  update_title_invalid (Body.title body) = false ->
  update_priority_invalid (Body.priority body) = false ->
  update_dueDate_invalid parse_ok (Body.dueDate body) = false ->
  Body.description body <> Null ->
  exists db' t,
    put_task parse_ok db id body now = (db', Json 200 (TaskJson t))
    /\ option_map to_json (select_by_id db' id) = Some t
    /\ (Body.title body = Undefined -> Task.title t = Row.title r)
    /\ (Body.description body = Undefined ->
        Task.description t = Row.description r)
    /\ (Body.dueDate body = Undefined -> Task.dueDate t = Row.dueDate r)
    /\ (Body.priority body = Undefined -> Task.priority t = Row.priority r)
    /\ (Body.tags body = Undefined -> Task.tags t = Row.tags r)
    /\ (Body.completed body = Undefined ->
        Task.completed t = Boolean (Row.completed r))
    /\ (forall s, Body.title body = Val s -> Task.title t = trim s)
    /\ (forall s, Body.description body = Val s ->
        Task.description t = trim s)
    /\ (forall p, Body.priority body = Val p -> Task.priority t = p)
    /\ (Body.dueDate body <> Undefined ->
        Task.dueDate t = bind_nullable (Body.dueDate body))
    /\ (Body.tags body <> Undefined ->
        Task.tags t = bind_nullable (Body.tags body))
    /\ (forall b, Body.completed body = Val b -> Task.completed t = b)
    /\ Task.id t = Row.id r
    /\ Task.createdAt t = Row.createdAt r
    /\ Task.updatedAt t = now
    /\ (forall id', id' <> id -> select_by_id db' id' = select_by_id db id').
Proof.
  intros H Ht Hp Hd Hdesc.
  exists (update_where_id db id (set_clause body now)).
  exists (to_json (set_clause body now r)).
  split; [apply put_task_valid; assumption|].
  split.
  { rewrite select_after_update by apply set_clause_id.
    rewrite String.eqb_refl, H. reflexivity. }
  simpl.
  repeat match goal with
         | |- _ /\ _ => split
         end;
    try (intros E; rewrite E; reflexivity);
    try (intros x E; rewrite E; try destruct x; reflexivity);
    try reflexivity.
  - intros E. destruct (Body.dueDate body); [congruence| |]; reflexivity.
  - intros E. destruct (Body.tags body); [congruence| |]; reflexivity.
  - intros id' Hne. rewrite select_after_update by apply set_clause_id.
    apply String.eqb_neq in Hne. rewrite Hne. reflexivity.
Qed.

Lemma put_task_keeps_omitted_fields_witness :
  select_by_id sample_db "t1"
  = Some (sample_row "t1" "Complete project documentation"
            (Some "2024-01-16T10:00:00.000Z") "high" 0 stamp0)
  /\ exists db' t,
    put_task iso_parse_ok sample_db "t1"
      (body_with Undefined Undefined (Val "low")) stamp1
    = (db', Json 200 (TaskJson t))
    /\ Task.title t = "Complete project documentation"
    /\ Task.description t = ""
    /\ Task.dueDate t = Some "2024-01-16T10:00:00.000Z"
    /\ Task.tags t = Some []
    /\ Task.priority t = "low"
    /\ Task.updatedAt t = stamp1.
Proof.
  split; [reflexivity|].
  destruct (put_task_keeps_omitted_fields iso_parse_ok sample_db "t1" _
              (body_with Undefined Undefined (Val "low")) stamp1
              eq_refl eq_refl eq_refl eq_refl)
    as (db' & t & E & _ & Ht & Hd & Hdue & _ & Htags & _ & _ & _ & Hp & _
        & _ & _ & _ & _ & Hu & _).
  { discriminate. }
  exists db', t.
  split; [exact E|].
  split; [exact (Ht eq_refl)|]. split; [exact (Hd eq_refl)|].
  split; [exact (Hdue eq_refl)|]. split; [exact (Htags eq_refl)|].
  split; [exact (Hp "low" eq_refl)|exact Hu].
Defined.

(** ** Bulk actions (C3) *)

Lemma for_each_update (f : Row.t -> Row.t) (ids : list string) :
  (forall r, Row.id (f r) = Row.id r) ->
  (forall r, f (f r) = f r) ->
  forall db : table,
    for_each (fun d id => update_where_id d id f) ids db
    = map (fun r => if in_dec string_dec (Row.id r) ids then f r else r) db.
Proof.
  intros Hid Hidem. unfold for_each.
  induction ids as [|id ids IH]; intros db.
  - simpl. rewrite <- (map_id db) at 1. reflexivity.
  - cbn [fold_left]. rewrite IH. unfold update_where_id. rewrite map_map.
    apply map_ext. intros r.
    destruct (Row.id r =? id) eqn:E.
    + apply String.eqb_eq in E. rewrite Hid, Hidem.
      destruct (in_dec string_dec (Row.id r) (id :: ids)) as [_|n].
      * destruct (in_dec string_dec (Row.id r) ids); reflexivity.
      * exfalso. apply n. simpl. auto.
    + apply String.eqb_neq in E.
      destruct (in_dec string_dec (Row.id r) ids) as [i|n];
        destruct (in_dec string_dec (Row.id r) (id :: ids)) as [i'|n'];
        try reflexivity.
      * exfalso. apply n'. simpl. auto.
      * exfalso. destruct i' as [e|i']; [apply E; auto|apply n; exact i'].
Qed.

Lemma for_each_delete (ids : list string) :
  forall db : table,
    for_each (fun d id => fst (delete_where_id d id)) ids db
    = filter (fun r => if in_dec string_dec (Row.id r) ids
                       then false else true) db.
Proof.
  unfold for_each.
  induction ids as [|id ids IH]; intros db.
  - simpl. induction db as [|r db IHdb]; simpl; [|rewrite <- IHdb];
      reflexivity.
  - cbn [fold_left]. rewrite IH. unfold delete_where_id. cbn [fst].
    induction db as [|r db IHdb]; [reflexivity|].
    cbn [filter]. destruct (Row.id r =? id) eqn:E; cbn [negb].
    + apply String.eqb_eq in E.
      destruct (in_dec string_dec (Row.id r) (id :: ids)) as [_|n].
      * exact IHdb.
      * exfalso. apply n. simpl. auto.
    + apply String.eqb_neq in E. cbn [filter].
      destruct (in_dec string_dec (Row.id r) ids) as [i|n];
        destruct (in_dec string_dec (Row.id r) (id :: ids)) as [i'|n'].
      * exact IHdb.
      * exfalso. apply n'. simpl. auto.
      * exfalso. destruct i' as [e|i']; [apply E; auto|apply n; exact i'].
      * f_equal. exact IHdb.
Qed.





(** ** [trim] *)

Lemma trim_end_empty (s : string) :
  trim_end s = EmptyString <-> all_ws s = true.
Proof.
  induction s as [|c s IH]; simpl.
  - tauto.
  - destruct (trim_end s) eqn:E.
    + destruct (is_ws c); simpl.
      * split; [intros _; apply IH; reflexivity|intros _; reflexivity].
      * split; discriminate.
    + split; [discriminate|].
      intros H. apply andb_true_iff in H. destruct H as [_ H].
      apply IH in H. discriminate.
Qed.

Lemma trim_start_split (s : string) :
  exists l : string,
    s = (l ++ trim_start s)%string /\ all_ws l = true
    /\ not_ws (first_char (trim_start s)).
Proof.
  induction s as [|c s (l & Hs & Hl & Hf)]; simpl.
  - exists EmptyString. simpl. auto.
  - destruct (is_ws c) eqn:E.
    + exists (String c l). simpl. rewrite E, Hl, <- Hs. auto.
    + exists EmptyString. simpl. auto.
Qed.

Lemma trim_end_split (s : string) :
  exists r : string,
    s = (trim_end s ++ r)%string /\ all_ws r = true
    /\ not_ws (last_char (trim_end s)).
Proof.
  induction s as [|c s (r & Hs & Hr & Hl)]; simpl.
  - exists EmptyString. simpl. auto.
  - destruct (trim_end s) as [|c' s'] eqn:E.
    + destruct (is_ws c) eqn:Ec.
      * exists (String c r). simpl in *. subst s. rewrite Ec, Hr. auto.
      * exists r. simpl in *. subst s. auto.
    + exists r. simpl in *. rewrite <- Hs. auto.
Qed.

Lemma all_ws_app (l t : string) :
  all_ws (l ++ t) = all_ws l && all_ws t.
Proof.
  induction l as [|c l IH]; simpl; [reflexivity|].
  rewrite IH, andb_assoc. reflexivity.
Qed.

Lemma trim_empty (s : string) : (trim s =? "") = all_ws s.
Proof.
  unfold trim.
  destruct (trim_start_split s) as (l & Hs & Hl & _).
  rewrite Hs at 2. rewrite all_ws_app, Hl. simpl.
  destruct (all_ws (trim_start s)) eqn:E.
  - apply trim_end_empty in E. rewrite E. reflexivity.
  - apply String.eqb_neq. intros H. apply trim_end_empty in H. congruence.
Qed.

Lemma first_char_trim_end (t : string) :
  not_ws (first_char t) -> not_ws (first_char (trim_end t)).
Proof.
  destruct t as [|c t]; simpl; [auto|].
  intros H. rewrite H. destruct (trim_end t); exact H.
Qed.

(** [trim] removes exactly the leading and the trailing whitespace. *)
Lemma trim_stripped (s : string) : stripped s (trim s).
Proof.
  unfold stripped, trim.
  destruct (trim_start_split s) as (l & Hs & Hl & Hf).
  destruct (trim_end_split (trim_start s)) as (r & Ht & Hr & Hlast).
  exists l, r. rewrite <- Ht.
  repeat split; auto using first_char_trim_end.
Qed.

(** ** Create (C1, C8) *)

Lemma create_title_invalid_blank (title : field string) :
  create_title_invalid title = title_blank title.
Proof.
  destruct title as [| |s]; try reflexivity.
  unfold create_title_invalid. simpl. rewrite trim_empty.
  destruct s; reflexivity.
Qed.

Lemma create_priority_outside (priority : field string) :
  negb (includes priorities (with_default (Val "medium") priority))
  = priority_outside_enum priority.
Proof.
  destruct priority as [| |p]; try reflexivity.
  simpl. rewrite orb_false_r, orb_assoc. reflexivity.
Qed.

Lemma create_dueDate_check (parse_ok : string -> bool)
  (dueDate : field string) :
  create_dueDate_invalid parse_ok (with_default Null dueDate)
  = truthy dueDate && dueDate_unparsable parse_ok dueDate.
Proof. destruct dueDate; reflexivity. Qed.

Lemma select_after_insert (db : table) (r : Row.t) :
  select_by_id db (Row.id r) = None ->
  insert_row db r = Some (db ++ [r])
  /\ select_by_id (db ++ [r]) (Row.id r) = Some r.
Proof.
  intros H. unfold insert_row. rewrite H. split; [reflexivity|].
  unfold select_by_id in *.
  induction db as [|x db IH]; simpl in *.
  - rewrite String.eqb_refl. reflexivity.
  - destruct (Row.id x =? Row.id r); [discriminate|]. apply IH. exact H.
Qed.

(** What a Create that passes validation does: with a string description
    (or none) and a fresh id it appends one row and answers it with 201;
    and a 201 answer can only come about this way. *)
Lemma post_tasks_valid (parse_ok : string -> bool) (db : table)
  (body : Body.t) (uuid now : string) (s : string) :
  Body.title body = Val s ->
  all_ws s = false ->
  priority_outside_enum (Body.priority body) = false ->
  truthy (Body.dueDate body)
  && dueDate_unparsable parse_ok (Body.dueDate body) = false ->
  Body.description body <> Null ->
  select_by_id db uuid = None ->
  exists d p,
    with_default (Val "") (Body.description body) = Val d
    /\ with_default (Val "medium") (Body.priority body) = Val p
    /\ post_tasks parse_ok db body uuid now
       = (db ++ [Row.mk uuid (trim s) (trim d)
                   (bind_nullable (with_default Null (Body.dueDate body))) p
                   (bind_nullable (with_default (Val []) (Body.tags body)))
                   0 now now],
          Json 201 (TaskJson (to_json
            (Row.mk uuid (trim s) (trim d)
               (bind_nullable (with_default Null (Body.dueDate body))) p
               (bind_nullable (with_default (Val []) (Body.tags body)))
               0 now now)))).
Proof.
  intros Ht Hs Hp Hd Hdesc Hfresh.
  assert (Ed : exists d, with_default (Val "") (Body.description body) = Val d).
  { destruct (Body.description body); simpl; eauto. congruence. }
  assert (Ep : exists p, with_default (Val "medium") (Body.priority body)
                         = Val p).
  { destruct (Body.priority body); simpl in *; eauto. discriminate. }
  destruct Ed as [d Ed]. destruct Ep as [p Ep]. exists d, p.
  split; [exact Ed|]. split; [exact Ep|].
  unfold post_tasks.
  rewrite create_title_invalid_blank, create_priority_outside,
    create_dueDate_check, Ht, Hp, Hd, Ed, Ep.
  cbn [title_blank]. rewrite Hs.
  match goal with
  | |- context [insert_row db ?r] =>
      destruct (select_after_insert db r Hfresh) as [Ei Es]; rewrite Ei
  end.
  cbn [Row.id] in Es. rewrite Es. reflexivity.
Qed.

Lemma post_tasks_created_inv (parse_ok : string -> bool) (db : table)
  (body : Body.t) (uuid now : string) (db' : table) (t : Task.t) :
  post_tasks parse_ok db body uuid now = (db', Json 201 (TaskJson t)) ->
  exists s d p,
    Body.title body = Val s
    /\ all_ws s = false
    /\ with_default (Val "") (Body.description body) = Val d
    /\ with_default (Val "medium") (Body.priority body) = Val p
    /\ t = to_json
             (Row.mk uuid (trim s) (trim d)
                (bind_nullable (with_default Null (Body.dueDate body))) p
                (bind_nullable (with_default (Val []) (Body.tags body)))
                0 now now)
    /\ select_by_id db' uuid
       = Some (Row.mk uuid (trim s) (trim d)
                 (bind_nullable (with_default Null (Body.dueDate body))) p
                 (bind_nullable (with_default (Val []) (Body.tags body)))
                 0 now now).
Proof.
  unfold post_tasks.
  rewrite create_title_invalid_blank, create_priority_outside,
    create_dueDate_check.
  destruct (title_blank (Body.title body)) eqn:Ht; [discriminate|].
  destruct (priority_outside_enum (Body.priority body)); [discriminate|].
  destruct (truthy (Body.dueDate body)
            && dueDate_unparsable parse_ok (Body.dueDate body));
    [discriminate|].
  destruct (Body.title body) as [| |s]; try discriminate.
  destruct (with_default (Val "") (Body.description body)) as [| |d];
    try discriminate.
  destruct (with_default (Val "medium") (Body.priority body)) as [| |p];
    try discriminate.
  match goal with
  | |- context [insert_row db ?r] => set (row := r)
  end.
  destruct (insert_row db row) as [db1|] eqn:Ei; [|discriminate].
  destruct (select_by_id db1 uuid) as [newTask|] eqn:Es; [|discriminate].
  intros H. injection H as Hdb Ht'. subst db' t.
  unfold insert_row in Ei.
  destruct (select_by_id db (Row.id row)) eqn:Efresh; [discriminate|].
  injection Ei as <-.
  destruct (select_after_insert db row Efresh) as [_ Es'].
  change (Row.id row) with uuid in Es'. rewrite Es' in Es.
  injection Es as <-.
  exists s, d, p. cbn [title_blank] in Ht. auto 10.
Qed.




(** C8. A valid Create with a fresh id succeeds, and every Create that
    succeeds answers a record whose title is the title sent with its
    leading and trailing whitespace removed, whose [completed] is false and
    whose priority is "medium" when the body has none. *)
Theorem post_tasks_created_record (parse_ok : string -> bool) (db : table)
  (body : Body.t) (uuid now : string) :
  (forall s, Body.title body = Val s -> all_ws s = false ->
     priority_outside_enum (Body.priority body) = false ->
     truthy (Body.dueDate body)
     && dueDate_unparsable parse_ok (Body.dueDate body) = false ->
     Body.description body <> Null ->
     select_by_id db uuid = None ->
     exists db' t,
       post_tasks parse_ok db body uuid now = (db', Json 201 (TaskJson t)))
  /\ (forall db' t,
        post_tasks parse_ok db body uuid now = (db', Json 201 (TaskJson t)) ->
        exists s,
          Body.title body = Val s
          /\ Task.title t = trim s
          /\ stripped s (Task.title t)
          /\ Task.completed t = false
          /\ (Body.priority body = Undefined -> Task.priority t = "medium")).
Proof.
  split.
  - intros s Ht Hs Hp Hd Hdesc Hfresh.
    destruct (post_tasks_valid parse_ok db body uuid now s Ht Hs Hp Hd
                Hdesc Hfresh) as (d & p & _ & _ & E).
    rewrite E. eauto.
  - intros db' t H.
    apply post_tasks_created_inv in H.
    destruct H as (s & d & p & Ht & _ & _ & Hp & -> & _).
    exists s. split; [exact Ht|]. cbn [to_json Task.title Row.title].
    split; [reflexivity|]. split; [apply trim_stripped|].
    split; [reflexivity|].
    intros E. rewrite E in Hp. simpl in Hp. injection Hp as <-. reflexivity.
Qed.

Lemma post_tasks_created_record_witness :
  exists db' t,
    post_tasks iso_parse_ok sample_db
      (body_with (Val "   Whitespace task   ") Undefined Undefined)
      "t4" stamp1
    = (db', Json 201 (TaskJson t))
    /\ Task.title t = "Whitespace task"
    /\ stripped "   Whitespace task   " (Task.title t)
    /\ Task.completed t = false
    /\ Task.priority t = "medium".
Proof.
  destruct (proj1 (post_tasks_created_record iso_parse_ok sample_db
              (body_with (Val "   Whitespace task   ") Undefined Undefined)
              "t4" stamp1) "   Whitespace task   " eq_refl eq_refl eq_refl
              eq_refl) as (db' & t & E).
  - discriminate.
  - reflexivity.
  - destruct (proj2 (post_tasks_created_record iso_parse_ok sample_db
                (body_with (Val "   Whitespace task   ") Undefined Undefined)
                "t4" stamp1) db' t E) as (s & Hs & Ht & Hst & Hc & Hp).
    injection Hs as <-.
    exists db', t. split; [exact E|]. split; [exact Ht|].
    split; [exact Hst|]. split; [exact Hc|exact (Hp eq_refl)].
Defined.

(** ** ORDER BY *)

Section OrderFacts.

Context {A : Type} (cmp : A -> A -> comparison) {O : Order cmp}.


Lemma cmp_eq_r (x y z : A) : cmp y z = Eq -> cmp x y = cmp x z.
Proof.
  intros H.
  assert (Hzy : cmp z y = Eq) by (rewrite (cmp_antisym y z), H; reflexivity).
  rewrite (cmp_antisym y x), (cmp_antisym z x).
  f_equal. symmetry. apply cmp_eq_l. exact Hzy.
Qed.

Lemma le_by_trans (x y z : A) :
  le_by cmp x y -> le_by cmp y z -> le_by cmp x z.
Proof.
  unfold le_by. intros Hxy Hyz.
  destruct (cmp x y) eqn:Exy; [| |congruence].
  - rewrite (cmp_eq_l x y z Exy). exact Hyz.
  - destruct (cmp y z) eqn:Eyz; [| |congruence].
    + rewrite <- (cmp_eq_r x y z Eyz), Exy. discriminate.
    + rewrite (cmp_lt_trans x y z Exy Eyz). discriminate.
Qed.

Lemma le_by_total (x y : A) : cmp x y = Gt -> le_by cmp y x.
Proof.
  unfold le_by. intros H. rewrite (cmp_antisym x y), H. discriminate.
Qed.

Lemma insert_by_perm (x : A) (l : list A) :
  Permutation (insert_by cmp x l) (x :: l).
Proof.
  induction l as [|y l IH]; simpl; [reflexivity|].
  destruct (cmp x y); try reflexivity.
  rewrite IH. apply perm_swap.
Qed.

Lemma order_by_perm (l : list A) : Permutation (order_by cmp l) l.
Proof.
  induction l as [|x l IH]; simpl; [reflexivity|].
  rewrite insert_by_perm. constructor. exact IH.
Qed.

Lemma insert_by_sorted (x : A) (l : list A) :
  StronglySorted (le_by cmp) l ->
  StronglySorted (le_by cmp) (insert_by cmp x l).
Proof.
  induction l as [|y l IH]; intros Hs; simpl.
  - repeat constructor.
  - inversion Hs as [|? ? Hl Hy]; subst.
    assert (Hcons : le_by cmp x y ->
                    StronglySorted (le_by cmp) (x :: y :: l)).
    { intros Hxy. constructor; [exact Hs|].
      constructor; [exact Hxy|].
      eapply Forall_impl; [|exact Hy].
      intros z Hyz. eapply le_by_trans; eassumption. }
    destruct (cmp x y) eqn:E.
    + apply Hcons. unfold le_by. congruence.
    + apply Hcons. unfold le_by. congruence.
    + constructor; [apply IH; exact Hl|].
      eapply Permutation_Forall;
        [symmetry; apply insert_by_perm|].
      constructor; [apply le_by_total; exact E|exact Hy].
Qed.

Lemma order_by_sorted (l : list A) :
  StronglySorted (le_by cmp) (order_by cmp l).
Proof.
  induction l as [|x l IH]; simpl; [constructor|].
  apply insert_by_sorted. exact IH.
Qed.

End OrderFacts.

Lemma sorted_nth {A : Type} (R : A -> A -> Prop) (l : list A) :
  StronglySorted R l ->
  forall i j a b, i < j -> nth_error l i = Some a -> nth_error l j = Some b ->
                  R a b.
Proof.
  induction 1 as [|x l Hs IH Hx]; intros i j a b Hij Ha Hb.
  - destruct i; discriminate.
  - destruct j as [|j]; [lia|]. simpl in Hb.
    destruct i as [|i]; simpl in Ha.
    + injection Ha as <-. rewrite Forall_forall in Hx.
      apply Hx. eapply nth_error_In. exact Hb.
    + apply (IH i j); [lia|assumption|assumption].
Qed.

Lemma Order_nat : Order Nat.compare.
Proof.
  split.
  - intros x y. apply Nat.compare_antisym.
  - intros x y z H. apply Nat.compare_eq in H. subst. reflexivity.
  - intros x y z. rewrite !Nat.compare_lt_iff. lia.
Qed.

Lemma ascii_compare_refl (a : ascii) : Ascii.compare a a = Eq.
Proof. unfold Ascii.compare. apply N.compare_refl. Qed.

Lemma ascii_compare_lt_trans (a b c : ascii) :
  Ascii.compare a b = Lt -> Ascii.compare b c = Lt -> Ascii.compare a c = Lt.
Proof.
  unfold Ascii.compare. rewrite !N.compare_lt_iff. apply N.lt_trans.
Qed.


Lemma string_compare_lt_trans (x y z : string) :
  String.compare x y = Lt -> String.compare y z = Lt ->
  String.compare x z = Lt.
Proof.
  revert y z. induction x as [|a x IH]; intros [|b y] [|c z]; simpl;
    try congruence.
  destruct (Ascii.compare a b) eqn:Eab; try discriminate;
    destruct (Ascii.compare b c) eqn:Ebc; try discriminate; intros Hxy Hyz.
  - apply Ascii.compare_eq_iff in Eab, Ebc. subst.
    rewrite ascii_compare_refl. eapply IH; eassumption.
  - apply Ascii.compare_eq_iff in Eab. subst. rewrite Ebc. reflexivity.
  - apply Ascii.compare_eq_iff in Ebc. subst. rewrite Eab. reflexivity.
  - rewrite (ascii_compare_lt_trans a b c Eab Ebc). reflexivity.
Qed.

Lemma Order_string : Order String.compare.
Proof.
  split.
  - intros x y. apply String.compare_antisym.
  - intros x y z H. apply String.compare_eq_iff in H. subst. reflexivity.
  - apply string_compare_lt_trans.
Qed.

Lemma Order_null {A : Type} (cmp : A -> A -> comparison) :
  Order cmp -> Order (compare_null cmp).
Proof.
  intros O. split.
  - intros [x|] [y|]; simpl; try reflexivity. apply cmp_antisym.
  - intros [x|] [y|] [z|]; simpl; try congruence. apply cmp_eq_l.
  - intros [x|] [y|] [z|]; simpl; try congruence. apply cmp_lt_trans.
Qed.

Lemma Order_on {A B : Type} (f : A -> B) (cmp : B -> B -> comparison) :
  Order cmp -> Order (fun x y => cmp (f x) (f y)).
Proof.
  intros O. split; intros.
  - apply (cmp_antisym (Order := O)).
  - apply (cmp_eq_l (Order := O)). assumption.
  - eapply (cmp_lt_trans (Order := O)); eassumption.
Qed.

Lemma Order_desc {A : Type} (cmp : A -> A -> comparison) :
  Order cmp -> Order (fun x y => cmp y x).
Proof.
  intros O. split.
  - intros x y. apply (cmp_antisym (Order := O)).
  - intros x y z H. apply (cmp_eq_r cmp (O := O)).
    rewrite (cmp_antisym (Order := O)), H. reflexivity.
  - intros x y z Hxy Hyz.
    apply (cmp_lt_trans (Order := O) z y x); assumption.
Qed.

Lemma Order_lex {A : Type} (c1 c2 : A -> A -> comparison) :
  Order c1 -> Order c2 -> Order (fun x y => lex (c1 x y) (c2 x y)).
Proof.
  intros O1 O2. split.
  - intros x y. rewrite (cmp_antisym (Order := O1) x y),
      (cmp_antisym (Order := O2) x y).
    destruct (c1 x y); reflexivity.
  - intros x y z H. unfold lex in *.
    destruct (c1 x y) eqn:E1; try discriminate.
    rewrite (cmp_eq_l (Order := O1) x y z E1).
    destruct (c1 y z); try reflexivity.
    apply (cmp_eq_l (Order := O2)). exact H.
  - intros x y z Hxy Hyz. unfold lex in *.
    destruct (c1 x y) eqn:E1; try discriminate.
    + rewrite (cmp_eq_l (Order := O1) x y z E1).
      destruct (c1 y z); try congruence.
      eapply (cmp_lt_trans (Order := O2)); eassumption.
    + destruct (c1 y z) eqn:E2; try discriminate.
      * rewrite <- (cmp_eq_r c1 (O := O1) x y z E2), E1. reflexivity.
      * rewrite (cmp_lt_trans (Order := O1) x y z E1 E2). reflexivity.
Qed.

Lemma Order_dueDate : Order order_dueDate.
Proof.
  exact (Order_lex
           (fun r1 r2 => Nat.compare (due_is_null r1) (due_is_null r2))
           (fun r1 r2 => compare_null String.compare
                           (Row.dueDate r1) (Row.dueDate r2))
           (Order_on due_is_null Nat.compare Order_nat)
           (Order_on Row.dueDate (compare_null String.compare)
              (Order_null String.compare Order_string))).
Qed.

Lemma Order_priority : Order order_priority.
Proof.
  exact (Order_on (fun r => priority_rank (Row.priority r))
           (compare_null Nat.compare) (Order_null Nat.compare Order_nat)).
Qed.

Lemma Order_createdAt : Order order_createdAt.
Proof.
  exact (Order_desc
           (fun r1 r2 => String.compare (Row.createdAt r1) (Row.createdAt r2))
           (Order_on Row.createdAt String.compare Order_string)).
Qed.

Lemma Order_default : Order order_default.
Proof.
  exact (Order_lex order_dueDate
           (fun r1 r2 => lex (order_priority r1 r2) (order_createdAt r1 r2))
           Order_dueDate
           (Order_lex order_priority order_createdAt
              Order_priority Order_createdAt)).
Qed.

(** ** List with the default sort (C2) *)

Lemma string_leb_of_compare (x y : string) :
  String.compare x y <> Gt -> String.leb x y = true.
Proof. unfold String.leb. destruct (String.compare x y); congruence. Qed.



Lemma where_no_filters (db : table) :
  filter (fun r => where_status Undefined r && where_priority Undefined r
                   && where_search Undefined r) db = db.
Proof.
  induction db as [|r db IH]; simpl; [reflexivity|].
  f_equal. exact IH.
Qed.




(** ** List with a search string (C7) *)

Lemma like_percent_unfold (p t : string) :
  like (String "%" p) t
  = like p t
    || match t with
       | EmptyString => false
       | String _ t' => like (String "%" p) t'
       end.
Proof. destruct t; reflexivity. Qed.

Lemma like_char_unfold (c : ascii) (p t : string) :
  Ascii.eqb c "%" = false ->
  like (String c p) t
  = match t with
    | EmptyString => false
    | String d t' =>
        (Ascii.eqb c "_" || Ascii.eqb (to_lower c) (to_lower d)) && like p t'
    end.
Proof. intros H. cbn [like]. rewrite H. reflexivity. Qed.

Lemma like_percent_any (t : string) : like "%" t = true.
Proof.
  induction t as [|d t IH]; [reflexivity|].
  rewrite like_percent_unfold, IH. apply orb_true_r.
Qed.

Lemma like_prefix (s t : string) :
  has_wildcard s = false -> like (s ++ "%") t = ci_prefixb s t.
Proof.
  revert t. induction s as [|c s IH]; intros t Hw.
  - apply like_percent_any.
  - cbn [has_wildcard] in Hw.
    apply orb_false_iff in Hw. destruct Hw as [Hw Hs].
    apply orb_false_iff in Hw. destruct Hw as [Hpc Hus].
    cbn [append]. rewrite (like_char_unfold c _ t Hpc). cbn [ci_prefixb].
    destruct t as [|d t]; [reflexivity|].
    rewrite Hus, (IH t Hs). reflexivity.
Qed.

(** Without [%] and [_] in the search string the LIKE test is the
    case-insensitive substring test. *)
Lemma like_substring (s t : string) :
  has_wildcard s = false -> like ("%" ++ s ++ "%") t = ci_substringb s t.
Proof.
  intros Hw. change ("%" ++ s ++ "%")%string with (String "%" (s ++ "%")).
  induction t as [|d t IH].
  - rewrite like_percent_unfold, (like_prefix s _ Hw).
    destruct s; reflexivity.
  - rewrite like_percent_unfold, (like_prefix s _ Hw), IH. reflexivity.
Qed.

Lemma ci_prefixb_spec (s t : string) :
  ci_prefixb s t = true
  <-> exists m r : string, t = (m ++ r)%string /\ lower m = lower s.
Proof.
  revert t. induction s as [|c s IH]; intros t; cbn [ci_prefixb].
  - split; [|reflexivity]. intros _. exists EmptyString, t. auto.
  - destruct t as [|d t].
    + split; [discriminate|].
      intros (m & r & Ht & Hm). destruct m; simpl in *; discriminate.
    + rewrite andb_true_iff, Ascii.eqb_eq, IH. split.
      * intros (Hc & m & r & -> & Hm).
        exists (String d m), r. simpl. rewrite Hm, Hc. auto.
      * intros (m & r & Ht & Hm).
        destruct m as [|d' m]; simpl in *; [discriminate|].
        injection Ht as -> ->. injection Hm as Hc Hm. eauto.
Qed.

Lemma ci_substringb_spec (s t : string) :
  ci_substringb s t = true <-> ci_substring s t.
Proof.
  unfold ci_substring. induction t as [|d t IH]; cbn [ci_substringb].
  - rewrite orb_false_r, ci_prefixb_spec. split.
    + intros (m & r & Ht & Hm). exists EmptyString, m, r. auto.
    + intros (l & m & r & Ht & Hm).
      destruct l; simpl in Ht; [eauto|discriminate].
  - rewrite orb_true_iff, ci_prefixb_spec, IH. split.
    + intros [(m & r & Ht & Hm)|(l & m & r & Ht & Hm)].
      * exists EmptyString, m, r. auto.
      * exists (String d l), m, r. simpl. rewrite Ht. auto.
    + intros (l & m & r & Ht & Hm). destruct l as [|d' l]; simpl in Ht.
      * left. eauto.
      * injection Ht as -> ->. right. eauto.
Qed.

(** For a search string without LIKE wildcards the search clause keeps
    exactly the rows whose title or description contains it, ignoring
    ASCII case. (This is a fact about [like], hence about the query on
    strings without U+0000.) *)
Lemma where_search_without_wildcard (s : string) (r : Row.t) :
  s <> EmptyString -> has_wildcard s = false ->
  (where_search (Val s) r = true
   <-> ci_substring s (Row.title r) \/ ci_substring s (Row.description r)).
Proof.
  intros Hne Hw. unfold where_search. cbn [truthy].
  apply String.eqb_neq in Hne. rewrite Hne. cbn [negb].
  rewrite !(like_substring s _ Hw), orb_true_iff, !ci_substringb_spec.
  reflexivity.
Qed.

(** C7 fails on the code. The search string [to_do] is passed to LIKE
    unescaped, so its [_] matches any character: the row titled
    "Write to-do list" is returned although neither its title nor its
    description contains [to_do]. *)
Theorem get_tasks_search_wildcard :
  ci_substringb "to_do" "Write to-do list" = false
  /\ ci_substringb "to_do" "" = false
  /\ get_tasks
       [sample_row "t1" "Write to-do list" None "medium" 0 stamp0]
       (Query.mk Undefined Undefined (Val "to_do") Undefined)
     = ([sample_row "t1" "Write to-do list" None "medium" 0 stamp0],
        Json 200 (TaskList
          [to_json (sample_row "t1" "Write to-do list" None "medium" 0
                      stamp0)])).
Proof. repeat split. Qed.

(** ** The hook's mutations (C9) *)

Lemma trace_SetError {R : Type} (api : server) (e : option string)
  (k : prog R) (st : HookState.t) :
  trace api (SetError e k) st
  = EvSetError e
    :: trace api k (HookState.mk (HookState.tasks st) (HookState.loading st)
                      e (HookState.filters st)).
Proof.
  unfold trace. cbn [run].
  destruct (run api k _) as [[s tr] r]. reflexivity.
Qed.

Lemma trace_SetTasks {R : Type} (api : server)
  (u : list Task.t -> list Task.t) (k : prog R) (st : HookState.t) :
  trace api (SetTasks u k) st
  = EvSetTasks (u (HookState.tasks st))
    :: trace api k (HookState.mk (u (HookState.tasks st))
                      (HookState.loading st) (HookState.error st)
                      (HookState.filters st)).
Proof.
  unfold trace. cbn [run].
  destruct (run api k _) as [[s tr] r]. reflexivity.
Qed.

Lemma trace_Await {R A : Type} (api : server) (c : api_call A)
  (k : A + string -> prog R) (st : HookState.t) :
  trace api (Await c k) st = EvApi c :: trace api (k (api A c)) st.
Proof.
  unfold trace. cbn [run].
  destruct (run api (k (api A c)) st) as [[s tr] r]. reflexivity.
Qed.

Lemma trace_ReadTasks {R : Type} (api : server)
  (k : list Task.t -> prog R) (st : HookState.t) :
  trace api (ReadTasks k) st = trace api (k (HookState.tasks st)) st.
Proof. reflexivity. Qed.

(** Update, toggle and delete change the local collection first and call
    the API client afterwards, whatever the server answers. *)
Lemma updateTaskData_sets_before_call (api : server) (st : HookState.t)
  (id : string) (updates : Updates.t) :
  exists rest,
    trace api (updateTaskData id updates) st
    = EvSetError None
      :: EvSetTasks (map (fun task => if Task.id task =? id
                                      then spread task updates else task)
                       (HookState.tasks st))
      :: EvApi (updateTask id updates) :: rest.
Proof.
  unfold updateTaskData, setError, setTasks, await.
  cbn [bind try_catch].
  rewrite trace_SetError, trace_SetTasks, trace_Await.
  eexists. reflexivity.
Qed.

Lemma toggleTaskCompletion_sets_before_call (api : server)
  (st : HookState.t) (id : string) :
  exists rest,
    trace api (toggleTaskCompletion id) st
    = EvSetError None
      :: EvSetTasks
           (map (fun task =>
                   if Task.id task =? id
                   then set_task_completed task (negb (Task.completed task))
                   else task)
              (HookState.tasks st))
      :: EvApi (toggleTask id) :: rest.
Proof.
  unfold toggleTaskCompletion, setError, setTasks, await.
  cbn [bind try_catch].
  rewrite trace_SetError, trace_SetTasks, trace_Await.
  eexists. reflexivity.
Qed.

Lemma removeTask_sets_before_call (api : server) (st : HookState.t)
  (id : string) :
  exists rest,
    trace api (removeTask id) st
    = EvSetError None
      :: EvSetTasks (filter (fun task => negb (Task.id task =? id))
                       (HookState.tasks st))
      :: EvApi (deleteTask id) :: rest.
Proof.
  unfold removeTask, setError, setTasks, await.
  cbn [bind try_catch].
  rewrite trace_SetError, trace_ReadTasks. cbn [bind try_catch].
  rewrite trace_SetTasks, trace_Await.
  eexists. reflexivity.
Qed.

(** Add calls the API client first: no run of [addTask] changes the local
    collection before the create request, and the new task is prepended
    only once the request has resolved. *)
Lemma addTask_calls_before_set (api : server) (st : HookState.t)
  (taskData : Body.t) :
  set_before_call (trace api (addTask taskData) st) = false
  /\ trace api (addTask taskData) st
     = EvSetError None
       :: EvApi (createTask taskData)
       :: match api _ (createTask taskData) with
          | inl newTask => [EvSetTasks (newTask :: HookState.tasks st)]
          | inr message => [EvSetError (Some message)]
          end.
Proof.
  assert (E : trace api (addTask taskData) st
     = EvSetError None
       :: EvApi (createTask taskData)
       :: match api _ (createTask taskData) with
          | inl newTask => [EvSetTasks (newTask :: HookState.tasks st)]
          | inr message => [EvSetError (Some message)]
          end).
  { unfold addTask, setError, setTasks, await.
    cbn [bind try_catch].
    rewrite trace_SetError, trace_Await.
    destruct (api Task.t (createTask taskData)); reflexivity. }
  split; [rewrite E; reflexivity|exact E].
Qed.

(** A bulk action makes no local change of its own: its request goes out
    first and the collection is only replaced by the refetch. *)
Lemma performBulkAction_calls_first (api : server) (st : HookState.t)
  (action : string) (taskIds : list string) :
  exists rest,
    trace api (performBulkAction action taskIds) st
    = EvSetError None :: EvApi (bulkAction action taskIds) :: rest.
Proof.
  unfold performBulkAction, setError, await.
  cbn [bind try_catch].
  rewrite trace_SetError, trace_Await.
  eexists. reflexivity.
Qed.

(** C9 fails on the code for add. With three tasks in local state and a
    server that creates the task, [addTask] first issues the create
    request and only then prepends the task the server returned; update,
    run from the same state, patches the local collection before its
    request. *)
Theorem addTask_is_not_optimistic :
  trace sample_server (addTask (body_with (Val "Buy milk") Undefined Undefined))
    sample_state
  = [ EvSetError None;
      EvApi (createTask (body_with (Val "Buy milk") Undefined Undefined));
      EvSetTasks (milk :: map to_json sample_db) ]
  /\ set_before_call
       (trace sample_server
          (addTask (body_with (Val "Buy milk") Undefined Undefined))
          sample_state) = false
  /\ set_before_call
       (trace sample_server
          (updateTaskData "t2"
             (Updates.mk None None None (Some "low") None None))
          sample_state) = true.
Proof. repeat split. Qed.

(** * Further properties of the handlers *)

(** ** What each handler can do to the table *)

Lemma priority_in_enum (priority : field string) (p : string) :
  priority_outside_enum priority = false ->
  with_default (Val "medium") priority = Val p ->
  In p priorities.
Proof.
  destruct priority as [| |q]; simpl; intros H E; try discriminate.
  - injection E as <-. auto.
  - injection E as <-. apply negb_false_iff in H.
    rewrite !orb_true_iff, !String.eqb_eq in H. intuition auto.
Qed.

(** Create either answers an error and leaves the table, or appends the
    one row it answers with 201. *)
Lemma post_tasks_cases (parse_ok : string -> bool) (db : table)
  (body : Body.t) (uuid now : string) :
  (is_error (snd (post_tasks parse_ok db body uuid now)) = true
   /\ fst (post_tasks parse_ok db body uuid now) = db)
  \/ (exists s d p,
        Body.title body = Val s
        /\ all_ws s = false
        /\ with_default (Val "") (Body.description body) = Val d
        /\ with_default (Val "medium") (Body.priority body) = Val p
        /\ In p priorities
        /\ select_by_id db uuid = None
        /\ post_tasks parse_ok db body uuid now
           = (db ++ [Row.mk uuid (trim s) (trim d)
                       (bind_nullable (with_default Null (Body.dueDate body)))
                       p
                       (bind_nullable
                          (with_default (Val []) (Body.tags body)))
                       0 now now],
              Json 201 (TaskJson (to_json
                (Row.mk uuid (trim s) (trim d)
                   (bind_nullable (with_default Null (Body.dueDate body)))
                   p
                   (bind_nullable (with_default (Val []) (Body.tags body)))
                   0 now now))))).
Proof.
  unfold post_tasks.
  rewrite create_title_invalid_blank, create_priority_outside,
    create_dueDate_check.
  destruct (title_blank (Body.title body)) eqn:Ht; [left; auto|].
  destruct (priority_outside_enum (Body.priority body)) eqn:Hp;
    [left; auto|].
  destruct (truthy (Body.dueDate body)
            && dueDate_unparsable parse_ok (Body.dueDate body));
    [left; auto|].
  destruct (Body.title body) as [| |s]; [left; auto..|].
  destruct (with_default (Val "") (Body.description body)) as [| |d] eqn:Ed;
    [left; auto..|].
  destruct (with_default (Val "medium") (Body.priority body)) as [| |p]
    eqn:Ep; [left; auto..|].
  match goal with
  | |- context [insert_row db ?r] => set (row := r)
  end.
  unfold insert_row. change (Row.id row) with uuid.
  destruct (select_by_id db uuid) eqn:Efresh; [left; auto|].
  destruct (select_after_insert db row Efresh) as [_ Es].
  change (Row.id row) with uuid in Es. rewrite Es.
  right. exists s, d, p. cbn [title_blank] in Ht.
  pose proof (priority_in_enum _ p Hp Ep). auto 10.
Qed.

(** Update either answers an error and leaves the table, or applies the
    SET list to the addressed row and answers it with 200. *)
Lemma put_task_cases (parse_ok : string -> bool) (db : table) (id : string)
  (body : Body.t) (now : string) :
  (is_error (snd (put_task parse_ok db id body now)) = true
   /\ fst (put_task parse_ok db id body now) = db)
  \/ (exists r,
        select_by_id db id = Some r
        /\ update_title_invalid (Body.title body) = false
        /\ update_priority_invalid (Body.priority body) = false
        /\ update_dueDate_invalid parse_ok (Body.dueDate body) = false
        /\ Body.description body <> Null
        /\ put_task parse_ok db id body now
           = (update_where_id db id (set_clause body now),
              Json 200 (TaskJson (to_json (set_clause body now r))))).
Proof.
  destruct (select_by_id db id) as [r|] eqn:E.
  - destruct (update_title_invalid (Body.title body)) eqn:Ht;
      [left; unfold put_task; rewrite E, Ht; auto|].
    destruct (update_priority_invalid (Body.priority body)) eqn:Hp;
      [left; unfold put_task; rewrite E, Ht, Hp; auto|].
    destruct (update_dueDate_invalid parse_ok (Body.dueDate body)) eqn:Hd;
      [left; unfold put_task; rewrite E, Ht, Hp, Hd; auto|].
    destruct (Body.description body) as [| |d] eqn:Ed.
    + right. exists r. repeat split; try assumption; try congruence.
      apply put_task_valid; try assumption. congruence.
    + left. unfold put_task. rewrite E, Ht, Hp, Hd, Ed. auto.
    + right. exists r. repeat split; try assumption; try congruence.
      apply put_task_valid; try assumption. congruence.
  - left. unfold put_task. rewrite E. auto.
Qed.

Lemma patch_toggle_cases (db : table) (id : string) (now : string) :
  (select_by_id db id = None
   /\ patch_toggle db id now = (db, Error 404 "Task not found"))
  \/ (exists r,
        select_by_id db id = Some r
        /\ patch_toggle db id now
           = (update_where_id db id
                (set_completed (if Boolean (Row.completed r) then 0 else 1)
                   now),
              Json 200 (TaskJson (to_json
                (set_completed (if Boolean (Row.completed r) then 0 else 1)
                   now r))))).
Proof.
  destruct (select_by_id db id) as [r|] eqn:E.
  - right. exists r. split; [reflexivity|].
    apply (patch_toggle_present db id r now E).
  - left. split; [reflexivity|]. unfold patch_toggle. rewrite E. reflexivity.
Qed.

Lemma delete_task_cases (db : table) (id : string) :
  (select_by_id db id = None
   /\ delete_task db id = (db, Error 404 "Task not found"))
  \/ (exists r,
        select_by_id db id = Some r
        /\ delete_task db id
           = (fst (delete_where_id db id),
              Json 200 (Deleted "Task deleted successfully" id))).
Proof.
  destruct (select_by_id db id) as [r|] eqn:E.
  - right. exists r. split; [reflexivity|]. apply (delete_task_present db id r E).
  - left. split; [reflexivity|]. apply delete_task_absent. exact E.
Qed.

(** A bulk request either answers 400 and leaves the table, or maps one
    SET over the listed rows, or filters the listed rows out. *)
Lemma post_bulk_cases (db : table) (body : Bulk.t) (now : string) :
  (is_error (snd (post_bulk db body now)) = true
   /\ fst (post_bulk db body now) = db)
  \/ (exists ids c,
        Bulk.taskIds body = Val ids /\ (c = 0%Z \/ c = 1%Z)
        /\ is_error (snd (post_bulk db body now)) = false
        /\ fst (post_bulk db body now)
           = map (fun r => if in_dec string_dec (Row.id r) ids
                           then set_completed c now r else r) db)
  \/ (exists ids,
        Bulk.taskIds body = Val ids
        /\ is_error (snd (post_bulk db body now)) = false
        /\ fst (post_bulk db body now)
           = filter (fun r => if in_dec string_dec (Row.id r) ids
                              then false else true) db).
Proof.
  unfold post_bulk.
  destruct (Bulk.taskIds body) as [| |[|id0 ids]]; [left; auto..|].
  assert (Hs : forall c r, Row.id (set_completed c now r) = Row.id r)
    by reflexivity.
  assert (Hi : forall c r, set_completed c now (set_completed c now r)
                           = set_completed c now r) by reflexivity.
  destruct (strict_eq (Bulk.action body) "complete").
  { right. left. exists (id0 :: ids), 1%Z. cbn [fst snd is_error].
    rewrite (for_each_update _ (id0 :: ids) (Hs 1%Z) (Hi 1%Z)). auto. }
  destruct (strict_eq (Bulk.action body) "uncomplete").
  { right. left. exists (id0 :: ids), 0%Z. cbn [fst snd is_error].
    rewrite (for_each_update _ (id0 :: ids) (Hs 0%Z) (Hi 0%Z)). auto. }
  destruct (strict_eq (Bulk.action body) "delete").
  { right. right. exists (id0 :: ids). cbn [fst snd is_error].
    rewrite (for_each_delete (id0 :: ids)). auto. }
  left. auto.
Qed.

(** ** Failed requests have no effect *)

(** X1. Whenever Create, Update, Toggle or Delete answers with an error
    body (400, 404 or 500), and whenever a bulk action answers a
    validation error (400), the table is exactly as it was before the
    request; List never changes the table at all. *)
Theorem error_responses_leave_table (parse_ok : string -> bool) (db : table) :
  (forall body uuid now,
     is_error (snd (post_tasks parse_ok db body uuid now)) = true ->
     fst (post_tasks parse_ok db body uuid now) = db)
  /\ (forall id body now,
        is_error (snd (put_task parse_ok db id body now)) = true ->
        fst (put_task parse_ok db id body now) = db)
  /\ (forall id now,
        is_error (snd (patch_toggle db id now)) = true ->
        fst (patch_toggle db id now) = db)
  /\ (forall id,
        is_error (snd (delete_task db id)) = true ->
        fst (delete_task db id) = db)
  /\ (forall body now,
        is_validation_error (snd (post_bulk db body now)) = true ->
        fst (post_bulk db body now) = db)
  /\ (forall query, fst (get_tasks db query) = db).
Proof.
  repeat match goal with |- _ /\ _ => split end.
  - intros body uuid now H.
    destruct (post_tasks_cases parse_ok db body uuid now)
      as [[_ E]|(s & d & p & _ & _ & _ & _ & _ & _ & E)]; [exact E|].
    rewrite E in H. discriminate.
  - intros id body now H.
    destruct (put_task_cases parse_ok db id body now)
      as [[_ E]|(r & _ & _ & _ & _ & _ & E)]; [exact E|].
    rewrite E in H. discriminate.
  - intros id now H.
    destruct (patch_toggle_cases db id now) as [[_ E]|(r & _ & E)];
      rewrite E in *; [reflexivity|discriminate].
  - intros id H.
    destruct (delete_task_cases db id) as [[_ E]|(r & _ & E)];
      rewrite E in *; [reflexivity|discriminate].
  - intros body now H.
    assert (He : is_error (snd (post_bulk db body now)) = true).
    { destruct (snd (post_bulk db body now)); [discriminate|reflexivity]. }
    destruct (post_bulk_cases db body now)
      as [[_ E]|[(ids & c & _ & _ & E & _)|(ids & _ & E & _)]];
      [exact E|congruence|congruence].
  - reflexivity.
Qed.

(** A Create whose id is taken answers 500, and so does an Update with a
    [null] description; a bulk request with an unknown action answers 400;
    the table stays as it was. *)
Lemma error_responses_leave_table_witness :
  snd (post_tasks iso_parse_ok sample_db
         (body_with (Val "Buy milk") Undefined Undefined) "t1" stamp1)
  = Error 500 "Failed to create task"
  /\ fst (post_tasks iso_parse_ok sample_db
            (body_with (Val "Buy milk") Undefined Undefined) "t1" stamp1)
     = sample_db
  /\ snd (put_task iso_parse_ok sample_db "t1"
            (Body.mk Undefined Null Undefined Undefined Undefined Undefined)
            stamp1)
     = Error 500 "Failed to update task"
  /\ fst (put_task iso_parse_ok sample_db "t1"
            (Body.mk Undefined Null Undefined Undefined Undefined Undefined)
            stamp1)
     = sample_db
  /\ is_validation_error
       (snd (post_bulk sample_db (Bulk.mk (Val "archive") (Val ["t1"]))
               stamp1)) = true
  /\ fst (post_bulk sample_db (Bulk.mk (Val "archive") (Val ["t1"])) stamp1)
     = sample_db.
Proof.
  split; [reflexivity|]. split.
  - apply (proj1 (error_responses_leave_table iso_parse_ok sample_db)).
    reflexivity.
  - split; [reflexivity|]. split.
    + apply (proj1 (proj2
               (error_responses_leave_table iso_parse_ok sample_db))).
      reflexivity.
    + split; [reflexivity|].
      apply (proj1 (proj2 (proj2 (proj2 (proj2
               (error_responses_leave_table iso_parse_ok sample_db)))))).
      reflexivity.
Defined.

(** ** The primary key *)

Lemma select_none_not_in (db : table) (id : string) :
  select_by_id db id = None -> ~ In id (map Row.id db).
Proof.
  rewrite select_by_id_none. intros H Hin.
  apply in_map_iff in Hin. destruct Hin as (r & E & Hr).
  exact (H r Hr E).
Qed.

Lemma ids_after_update (db : table) (id : string) (f : Row.t -> Row.t) :
  (forall r, Row.id (f r) = Row.id r) ->
  map Row.id (update_where_id db id f) = map Row.id db.
Proof.
  intros Hf. unfold update_where_id. rewrite map_map.
  apply map_ext. intros r. destruct (Row.id r =? id); [apply Hf|reflexivity].
Qed.

Lemma ids_after_map_listed (db : table) (ids : list string)
  (f : Row.t -> Row.t) :
  (forall r, Row.id (f r) = Row.id r) ->
  map Row.id (map (fun r => if in_dec string_dec (Row.id r) ids
                            then f r else r) db)
  = map Row.id db.
Proof.
  intros Hf. rewrite map_map. apply map_ext.
  intros r. destruct (in_dec string_dec (Row.id r) ids);
    [apply Hf|reflexivity].
Qed.

(** Dropping rows cannot create a second row of an id. *)
Lemma filter_keeps_unique_ids (keep : Row.t -> bool) (db : table) :
  unique_ids db -> unique_ids (filter keep db).
Proof.
  unfold unique_ids. induction db as [|r db IH]; intros Hu.
  - constructor.
  - cbn [map] in Hu. apply NoDup_cons_iff in Hu. destruct Hu as [Hr Hdb].
    cbn [filter]. destruct (keep r).
    + cbn [map]. apply NoDup_cons; [|exact (IH Hdb)].
      intros Hin. apply Hr.
      apply in_map_iff in Hin. destruct Hin as (r' & E & Hr').
      apply in_map_iff. exists r'. split; [exact E|].
      apply (incl_filter keep db). exact Hr'.
    + exact (IH Hdb).
Qed.

(** X2. Every handler keeps the primary key: from a table without two rows
    of one id, every request of every kind leaves such a table. *)
Theorem handlers_keep_ids_unique (parse_ok : string -> bool) (db : table) :
  unique_ids db ->
  (forall body uuid now,
     unique_ids (fst (post_tasks parse_ok db body uuid now)))
  /\ (forall id body now, unique_ids (fst (put_task parse_ok db id body now)))
  /\ (forall id now, unique_ids (fst (patch_toggle db id now)))
  /\ (forall id, unique_ids (fst (delete_task db id)))
  /\ (forall body now, unique_ids (fst (post_bulk db body now))).
Proof.
  unfold unique_ids. intros H.
  repeat match goal with |- _ /\ _ => split end.
  - intros body uuid now.
    destruct (post_tasks_cases parse_ok db body uuid now)
      as [[_ E]|(s & d & p & _ & _ & _ & _ & _ & Hfresh & E)];
      rewrite E; [exact H|].
    cbn [fst]. rewrite map_app. cbn [map Row.id].
    apply NoDup_app; [exact H|repeat constructor; simpl; tauto|].
    intros x Hx [<-|[]]. exact (select_none_not_in db uuid Hfresh Hx).
  - intros id body now.
    destruct (put_task_cases parse_ok db id body now)
      as [[_ E]|(r & _ & _ & _ & _ & _ & E)]; rewrite E; [exact H|].
    cbn [fst]. rewrite ids_after_update by apply set_clause_id. exact H.
  - intros id now.
    destruct (patch_toggle_cases db id now) as [[_ E]|(r & _ & E)];
      rewrite E; [exact H|].
    cbn [fst]. rewrite ids_after_update by apply set_completed_id. exact H.
  - intros id.
    destruct (delete_task_cases db id) as [[_ E]|(r & _ & E)];
      rewrite E; [exact H|].
    cbn [fst delete_where_id]. apply (filter_keeps_unique_ids _ db H).
  - intros body now.
    destruct (post_bulk_cases db body now)
      as [[_ E]|[(ids & c & _ & _ & _ & E)|(ids & _ & _ & E)]]; rewrite E.
    + exact H.
    + rewrite ids_after_map_listed by reflexivity. exact H.
    + apply (filter_keeps_unique_ids _ db H).
Qed.

Lemma handlers_keep_ids_unique_witness :
  unique_ids sample_db
  /\ unique_ids (fst (post_tasks iso_parse_ok sample_db
                        (body_with (Val "Buy milk") Undefined Undefined)
                        "t4" stamp1))
  /\ unique_ids (fst (post_bulk sample_db
                        (Bulk.mk (Val "delete") (Val ["t2"; "t2"; "ghost"]))
                        stamp1)).
Proof.
  assert (H : unique_ids sample_db).
  { unfold unique_ids. simpl. repeat constructor; simpl; intuition discriminate. }
  split; [exact H|].
  split.
  - apply (proj1 (handlers_keep_ids_unique iso_parse_ok sample_db H)).
  - apply (proj2 (proj2 (proj2 (proj2
             (handlers_keep_ids_unique iso_parse_ok sample_db H))))).
Defined.

(** ** What the rows hold *)

Lemma trim_start_fixed (t : string) :
  not_ws (first_char t) -> trim_start t = t.
Proof.
  destruct t as [|c t]; simpl; [reflexivity|].
  intros H. rewrite H. reflexivity.
Qed.

Lemma trim_end_fixed (t : string) :
  not_ws (last_char t) -> trim_end t = t.
Proof.
  induction t as [|c t IH]; [reflexivity|].
  destruct t as [|c' t'].
  - simpl. intros H. rewrite H. reflexivity.
  - intros H. change (last_char (String c (String c' t')))
      with (last_char (String c' t')) in H.
    specialize (IH H). cbn [trim_end] in *. rewrite IH. reflexivity.
Qed.

(** Trimming twice is trimming once. *)
Lemma trim_idempotent (s : string) : trim (trim s) = trim s.
Proof.
  destruct (trim_stripped s) as (l & r & _ & _ & _ & Hf & Hl).
  unfold trim at 1. rewrite (trim_start_fixed _ Hf).
  apply trim_end_fixed. exact Hl.
Qed.

Lemma all_ws_trim (s : string) : all_ws (trim s) = all_ws s.
Proof.
  destruct (trim_stripped s) as (l & r & Hs & Hl & Hr & _).
  rewrite Hs at 2. rewrite !all_ws_app, Hl, Hr, andb_true_r. reflexivity.
Qed.

Lemma update_title_invalid_blank (title : field string) :
  update_title_invalid title = negb (is_undefined title) && title_blank title.
Proof.
  destruct title as [| |s]; try reflexivity.
  unfold update_title_invalid. simpl. rewrite trim_empty.
  destruct s; reflexivity.
Qed.

Lemma update_priority_outside (priority : field string) :
  update_priority_invalid priority = priority_outside_enum priority.
Proof.
  destruct priority as [| |p]; try reflexivity.
  unfold update_priority_invalid. simpl.
  rewrite orb_false_r, orb_assoc. reflexivity.
Qed.

Lemma set_completed_ok (c : Z) (now : string) (r : Row.t) :
  c = 0%Z \/ c = 1%Z -> row_ok r -> row_ok (set_completed c now r).
Proof. unfold row_ok. simpl. intuition auto. Qed.

Lemma set_clause_ok (body : Body.t) (now : string) (r : Row.t) :
  update_title_invalid (Body.title body) = false ->
  update_priority_invalid (Body.priority body) = false ->
  row_ok r -> row_ok (set_clause body now r).
Proof.
  rewrite update_title_invalid_blank, update_priority_outside.
  intros Ht Hp (H1 & H2 & H3 & H4 & H5). unfold row_ok, set_clause.
  cbn [Row.title Row.description Row.priority Row.completed].
  repeat match goal with |- _ /\ _ => split end.
  - destruct (Body.title body); auto using trim_idempotent.
  - destruct (Body.title body) as [| |s]; auto.
    cbn [is_undefined negb andb title_blank] in Ht.
    rewrite all_ws_trim. exact Ht.
  - destruct (Body.description body); auto using trim_idempotent.
  - destruct (Body.priority body) as [| |p] eqn:E; auto.
    apply (priority_in_enum (Val p) p Hp). reflexivity.
  - destruct (Body.completed body) as [| |[|]]; auto.
Qed.

Lemma Forall_after_filter {A : Type} (P : A -> Prop) (p : A -> bool)
  (l : list A) :
  Forall P l -> Forall P (filter p l).
Proof.
  rewrite !Forall_forall. intros H x Hx.
  apply filter_In in Hx. apply H. tauto.
Qed.

(** X3. Every handler keeps the rows well formed: if every row has a
    trimmed, non-blank title, a trimmed description, a priority among low,
    medium and high and a completion flag of 0 or 1, the same is true after
    any request -- so the values List sorts and filters on are always of
    the expected form. *)
Theorem handlers_keep_rows_ok (parse_ok : string -> bool) (db : table) :
  Forall row_ok db ->
  (forall body uuid now,
     Forall row_ok (fst (post_tasks parse_ok db body uuid now)))
  /\ (forall id body now,
        Forall row_ok (fst (put_task parse_ok db id body now)))
  /\ (forall id now, Forall row_ok (fst (patch_toggle db id now)))
  /\ (forall id, Forall row_ok (fst (delete_task db id)))
  /\ (forall body now, Forall row_ok (fst (post_bulk db body now))).
Proof.
  intros H.
  assert (Hmap : forall (c : Row.t -> bool) f,
            (forall r, row_ok r -> row_ok (f r)) ->
            Forall row_ok (map (fun r => if c r then f r else r) db)).
  { intros c f Hf. apply Forall_map. eapply Forall_impl; [|exact H].
    intros r Hr. destruct (c r); auto. }
  repeat match goal with |- _ /\ _ => split end.
  - intros body uuid now.
    destruct (post_tasks_cases parse_ok db body uuid now)
      as [[_ E]|(s & d & p & _ & Hs & _ & _ & Hp & _ & E)];
      rewrite E; [exact H|].
    cbn [fst]. apply Forall_app. split; [exact H|].
    constructor; [|constructor]. unfold row_ok.
    cbn [Row.title Row.description Row.priority Row.completed].
    rewrite !trim_idempotent, all_ws_trim. auto 10.
  - intros id body now.
    destruct (put_task_cases parse_ok db id body now)
      as [[_ E]|(r & _ & Ht & Hp & _ & _ & E)]; rewrite E; [exact H|].
    apply Hmap. intros r0. apply set_clause_ok; assumption.
  - intros id now.
    destruct (patch_toggle_cases db id now) as [[_ E]|(r & _ & E)];
      rewrite E; [exact H|].
    apply Hmap. intros r0. apply set_completed_ok.
    destruct (Boolean (Row.completed r)); auto.
  - intros id.
    destruct (delete_task_cases db id) as [[_ E]|(r & _ & E)];
      rewrite E; [exact H|].
    cbn [fst delete_where_id]. apply Forall_after_filter. exact H.
  - intros body now.
    destruct (post_bulk_cases db body now)
      as [[_ E]|[(ids & c & _ & Hc & _ & E)|(ids & _ & _ & E)]]; rewrite E.
    + exact H.
    + apply Forall_map. eapply Forall_impl; [|exact H].
      intros r Hr. destruct (in_dec string_dec (Row.id r) ids); auto.
      apply set_completed_ok; assumption.
    + apply Forall_after_filter. exact H.
Qed.

Lemma handlers_keep_rows_ok_witness :
  Forall row_ok sample_db
  /\ Forall row_ok
       (fst (put_task iso_parse_ok sample_db "t2"
               (body_with (Val "  Review the pull requests  ") Null
                  (Val "high")) stamp1)).
Proof.
  assert (H : Forall row_ok sample_db).
  { repeat (constructor;
            [repeat split; try reflexivity; simpl; auto 6|]).
    constructor. }
  split; [exact H|].
  apply (proj1 (proj2 (handlers_keep_rows_ok iso_parse_ok sample_db H))).
Defined.

(** ** [id] and [createdAt] are written once *)

Lemma keys_after_update (db : table) (id : string) (f : Row.t -> Row.t) :
  (forall r, Row.id (f r) = Row.id r) ->
  (forall r, Row.createdAt (f r) = Row.createdAt r) ->
  map (fun r => (Row.id r, Row.createdAt r)) (update_where_id db id f)
  = map (fun r => (Row.id r, Row.createdAt r)) db.
Proof.
  intros Hi Hc. unfold update_where_id. rewrite map_map.
  apply map_ext. intros r.
  destruct (Row.id r =? id); [rewrite Hi, Hc|]; reflexivity.
Qed.

(** X4. Update, Toggle and the bulk actions complete and uncomplete never
    add, drop or reorder rows and never change an [id] or a [createdAt]:
    the list of (id, createdAt) pairs of the table is the same after the
    request, whatever the request holds. Create keeps every existing row
    as it is, in front of the row it may add. *)
Theorem id_and_createdAt_are_immutable (parse_ok : string -> bool)
  (db : table) :
  (forall id body now,
     map (fun r => (Row.id r, Row.createdAt r))
       (fst (put_task parse_ok db id body now))
     = map (fun r => (Row.id r, Row.createdAt r)) db)
  /\ (forall id now,
        map (fun r => (Row.id r, Row.createdAt r))
          (fst (patch_toggle db id now))
        = map (fun r => (Row.id r, Row.createdAt r)) db)
  /\ (forall body now,
        strict_eq (Bulk.action body) "delete" = false ->
        map (fun r => (Row.id r, Row.createdAt r))
          (fst (post_bulk db body now))
        = map (fun r => (Row.id r, Row.createdAt r)) db)
  /\ (forall body uuid now,
        firstn (List.length db) (fst (post_tasks parse_ok db body uuid now))
        = db).
Proof.
  repeat match goal with |- _ /\ _ => split end.
  - intros id body now.
    destruct (put_task_cases parse_ok db id body now)
      as [[_ E]|(r & _ & _ & _ & _ & _ & E)]; rewrite E; [reflexivity|].
    apply keys_after_update; reflexivity.
  - intros id now.
    destruct (patch_toggle_cases db id now) as [[_ E]|(r & _ & E)];
      rewrite E; [reflexivity|].
    apply keys_after_update; reflexivity.
  - intros body now Hdel. unfold post_bulk.
    destruct (Bulk.taskIds body) as [| |[|id0 ids]]; try reflexivity.
    rewrite Hdel.
    assert (Hs : forall c r, Row.id (set_completed c now r) = Row.id r)
      by reflexivity.
    assert (Hi : forall c r, set_completed c now (set_completed c now r)
                             = set_completed c now r) by reflexivity.
    destruct (strict_eq (Bulk.action body) "complete");
      [|destruct (strict_eq (Bulk.action body) "uncomplete")];
      try reflexivity; cbn [fst];
      rewrite for_each_update by auto; rewrite map_map; apply map_ext;
      intros r; destruct (in_dec string_dec (Row.id r) (id0 :: ids));
      reflexivity.
  - intros body uuid now.
    destruct (post_tasks_cases parse_ok db body uuid now)
      as [[_ E]|(s & d & p & _ & _ & _ & _ & _ & _ & E)]; rewrite E.
    + apply firstn_all.
    + cbn [fst]. rewrite firstn_app, firstn_all, Nat.sub_diag.
      cbn [firstn]. apply app_nil_r.
Qed.

Lemma id_and_createdAt_are_immutable_witness :
  map (fun r => (Row.id r, Row.createdAt r))
    (fst (post_bulk sample_db
            (Bulk.mk (Val "complete") (Val ["t3"; "t1"])) stamp2))
  = [("t1", stamp0); ("t2", stamp0); ("t3", stamp0)].
Proof.
  rewrite (proj1 (proj2 (proj2
             (id_and_createdAt_are_immutable iso_parse_ok sample_db)))
             (Bulk.mk (Val "complete") (Val ["t3"; "t1"])) stamp2 eq_refl).
  reflexivity.
Defined.

(** ** Update: validation and the other failure *)

(** X5. For an id that exists and a body whose supplied properties are
    [null] or of the Task shape's types (strings for title, description,
    priority and due date): Update answers a validation error exactly when
    a title is supplied that is null, empty or whitespace-only, or a
    priority is supplied that is outside the enum, or the due date is a
    string that does not parse -- the empty string included, unlike in
    Create. Such a request that passes these checks is answered 500 if its
    description is [null], and 200 if its description is a string or is
    absent. *)
Theorem put_task_validation (parse_ok : string -> bool) (db : table)
  (id : string) (r : Row.t) (body : Body.t) (now : string) :
  select_by_id db id = Some r ->
  is_validation_error (snd (put_task parse_ok db id body now))
  = (negb (is_undefined (Body.title body)) && title_blank (Body.title body))
    || priority_outside_enum (Body.priority body)
    || dueDate_unparsable parse_ok (Body.dueDate body)
  /\ (is_validation_error (snd (put_task parse_ok db id body now)) = false ->
      (Body.description body = Null ->
       snd (put_task parse_ok db id body now)
       = Error 500 "Failed to update task")
      /\ (Body.description body <> Null ->
          snd (put_task parse_ok db id body now)
          = Json 200 (TaskJson (to_json (set_clause body now r))))).
Proof.
  intros H.
  change (dueDate_unparsable parse_ok (Body.dueDate body))
    with (update_dueDate_invalid parse_ok (Body.dueDate body)).
  rewrite <- update_title_invalid_blank, <- update_priority_outside.
  destruct (update_title_invalid (Body.title body)) eqn:Ht.
  { unfold put_task. rewrite H, Ht. split; [reflexivity|discriminate]. }
  destruct (update_priority_invalid (Body.priority body)) eqn:Hp.
  { unfold put_task. rewrite H, Ht, Hp. split; [reflexivity|discriminate]. }
  destruct (update_dueDate_invalid parse_ok (Body.dueDate body)) eqn:Hd.
  { unfold put_task. rewrite H, Ht, Hp, Hd.
    split; [reflexivity|discriminate]. }
  destruct (Body.description body) as [| |d] eqn:Ed.
  - rewrite (put_task_valid parse_ok db id r body now H Ht Hp Hd)
      by congruence.
    split; [reflexivity|]. intros _. split; [discriminate|reflexivity].
  - unfold put_task. rewrite H, Ht, Hp, Hd, Ed.
    split; [reflexivity|]. intros _. split; [reflexivity|congruence].
  - rewrite (put_task_valid parse_ok db id r body now H Ht Hp Hd)
      by congruence.
    split; [reflexivity|]. intros _. split; [discriminate|reflexivity].
Qed.

(** The same empty due date that Create accepts is a validation error in
    Update. *)
Lemma put_task_validation_witness :
  is_validation_error
    (snd (put_task iso_parse_ok sample_db "t2"
            (body_with Undefined (Val "") Undefined) stamp1)) = true
  /\ is_validation_error
       (snd (post_tasks iso_parse_ok sample_db
               (body_with (Val "Buy milk") (Val "") Undefined) "t4" stamp1))
     = false.
Proof.
  split; [|reflexivity].
  rewrite (proj1 (put_task_validation iso_parse_ok sample_db "t2" _
                    (body_with Undefined (Val "") Undefined) stamp1
                    eq_refl)).
  reflexivity.
Defined.

(** ** Toggle changes two columns of one row *)

(** X6. Toggle of a task that exists answers that task with every field
    but [completed] and [updatedAt] as stored, and every other row of the
    table can be read back unchanged. *)
Theorem patch_toggle_frame (db : table) (id : string) (r : Row.t)
  (now : string) :
  select_by_id db id = Some r ->
  exists db' t,
    patch_toggle db id now = (db', Json 200 (TaskJson t))
    /\ option_map to_json (select_by_id db' id) = Some t
    /\ Task.id t = Row.id r
    /\ Task.title t = Row.title r
    /\ Task.description t = Row.description r
    /\ Task.dueDate t = Row.dueDate r
    /\ Task.priority t = Row.priority r
    /\ Task.tags t = Row.tags r
    /\ Task.createdAt t = Row.createdAt r
    /\ (forall id', id' <> id -> select_by_id db' id' = select_by_id db id')
    /\ List.length db' = List.length db.
Proof.
  intros H.
  destruct (patch_toggle_present db id r now H) as [E S].
  do 2 eexists. split; [exact E|]. split; [rewrite S; reflexivity|].
  repeat match goal with |- _ /\ _ => split end; try reflexivity.
  - intros id' Hne. rewrite select_after_update by apply set_completed_id.
    apply String.eqb_neq in Hne. rewrite Hne. reflexivity.
  - unfold update_where_id. apply length_map.
Qed.

Lemma patch_toggle_frame_witness :
  exists db' t,
    patch_toggle sample_db "t1" stamp1 = (db', Json 200 (TaskJson t))
    /\ Task.title t = "Complete project documentation"
    /\ Task.dueDate t = Some "2024-01-16T10:00:00.000Z"
    /\ Task.priority t = "high"
    /\ select_by_id db' "t2" = select_by_id sample_db "t2".
Proof.
  destruct (patch_toggle_frame sample_db "t1" _ stamp1 eq_refl)
    as (db' & t & E & _ & _ & Ht & _ & Hd & Hp & _ & _ & Ho & _).
  exists db', t. split; [exact E|]. split; [exact Ht|].
  split; [exact Hd|]. split; [exact Hp|].
  apply Ho. discriminate.
Defined.

(** ** Create: what is stored, and how it is found and removed again *)

(** X7. For a body whose supplied properties are [null] or of the Task
    shape's types (strings for title, description, priority and due date,
    a list of strings for tags): a Create that passes validation answers
    500 and changes nothing when its description is [null] or its id is
    already a key of the table; when its description is a string or absent
    and the id is fresh it answers 201 with a record that has the given
    id, the trimmed description (empty when none was sent), the due date
    and the tags as sent (null and the empty list when absent) and both
    timestamps equal to the clock reading of the request. *)
Theorem post_tasks_outcome (parse_ok : string -> bool) (db : table)
  (body : Body.t) (uuid now : string) :
  title_blank (Body.title body) = false ->
  priority_outside_enum (Body.priority body) = false ->
  truthy (Body.dueDate body)
  && dueDate_unparsable parse_ok (Body.dueDate body) = false ->
  (Body.description body = Null \/ select_by_id db uuid <> None ->
   post_tasks parse_ok db body uuid now
   = (db, Error 500 "Failed to create task"))
  /\ (Body.description body <> Null -> select_by_id db uuid = None ->
      exists db' t,
        post_tasks parse_ok db body uuid now = (db', Json 201 (TaskJson t))
        /\ option_map to_json (select_by_id db' uuid) = Some t
        /\ Task.id t = uuid
        /\ Task.description t
           = match Body.description body with
             | Val d => trim d
             | _ => ""
             end
        /\ Task.dueDate t = bind_nullable (Body.dueDate body)
        /\ Task.tags t
           = match Body.tags body with
             | Undefined => Some []
             | x => bind_nullable x
             end
        /\ Task.createdAt t = now
        /\ Task.updatedAt t = now).
Proof.
  intros Ht Hp Hd. split.
  - intros Hbad. unfold post_tasks.
    rewrite create_title_invalid_blank, create_priority_outside,
      create_dueDate_check, Ht, Hp, Hd.
    destruct (Body.title body) as [| |s]; try reflexivity.
    destruct (with_default (Val "") (Body.description body)) as [| |d] eqn:Ed;
      try reflexivity.
    destruct (with_default (Val "medium") (Body.priority body)) as [| |p];
      try reflexivity.
    unfold insert_row. cbn [Row.id].
    destruct (select_by_id db uuid) eqn:Efresh; [reflexivity|].
    destruct Hbad as [Hnull|Hkey]; [|exfalso; apply Hkey; reflexivity].
    rewrite Hnull in Ed. discriminate.
  - intros Hdesc Hfresh.
    destruct (Body.title body) as [| |s] eqn:Es; try discriminate.
    destruct (post_tasks_valid parse_ok db body uuid now s Es Ht Hp Hd
                Hdesc Hfresh) as (d & p & Ed & Ep & E).
    rewrite E. do 2 eexists. split; [reflexivity|].
    match goal with
    | |- context [db ++ [?r]] =>
        destruct (select_after_insert db r Hfresh) as [_ Sel]
    end.
    cbn [Row.id] in Sel. rewrite Sel.
    split; [reflexivity|]. split; [reflexivity|].
    cbn [to_json Task.description Task.dueDate Task.tags Task.createdAt
           Task.updatedAt Row.description Row.dueDate Row.tags
           Row.createdAt Row.updatedAt].
    split.
    { destruct (Body.description body) as [| |d0]; simpl in Ed;
        [injection Ed as <-; reflexivity
        |exfalso; apply Hdesc; reflexivity
        |injection Ed as <-; reflexivity]. }
    split; [destruct (Body.dueDate body); reflexivity|].
    split; [destruct (Body.tags body); reflexivity|].
    split; reflexivity.
Qed.

Lemma post_tasks_outcome_witness :
  post_tasks iso_parse_ok sample_db
    (Body.mk (Val "Buy milk") Null Undefined Undefined Undefined Undefined)
    "t4" stamp1
  = (sample_db, Error 500 "Failed to create task")
  /\ exists db' t,
       post_tasks iso_parse_ok sample_db
         (Body.mk (Val "Buy milk") (Val "  two litres ")
            (Val "2024-01-20T08:00:00.000Z") (Val "low")
            (Val ["shop"; "food"]) Undefined)
         "t4" stamp1
       = (db', Json 201 (TaskJson t))
       /\ Task.description t = "two litres"
       /\ Task.dueDate t = Some "2024-01-20T08:00:00.000Z"
       /\ Task.tags t = Some ["shop"; "food"]
       /\ Task.createdAt t = stamp1.
Proof.
  split.
  - apply (proj1 (post_tasks_outcome iso_parse_ok sample_db
                    (Body.mk (Val "Buy milk") Null Undefined Undefined
                       Undefined Undefined)
                    "t4" stamp1 eq_refl eq_refl eq_refl)).
    left. reflexivity.
  - destruct (proj2 (post_tasks_outcome iso_parse_ok sample_db
                       (Body.mk (Val "Buy milk") (Val "  two litres ")
                          (Val "2024-01-20T08:00:00.000Z") (Val "low")
                          (Val ["shop"; "food"]) Undefined)
                       "t4" stamp1 eq_refl eq_refl eq_refl))
      as (db' & t & E & _ & _ & Hd & Hdue & Htags & Hc & _).
    + discriminate.
    + reflexivity.
    + exists db', t. split; [exact E|]. split; [exact Hd|].
      split; [exact Hdue|]. split; [exact Htags|exact Hc].
Defined.

(** X8. Deleting the task a Create has just added gives back the table as
    it was before the Create, and answers 200. *)
Theorem post_tasks_then_delete_task (parse_ok : string -> bool) (db : table)
  (body : Body.t) (uuid now : string) (db' : table) (t : Task.t) :
  post_tasks parse_ok db body uuid now = (db', Json 201 (TaskJson t)) ->
  delete_task db' uuid
  = (db, Json 200 (Deleted "Task deleted successfully" uuid)).
Proof.
  intros H.
  destruct (post_tasks_cases parse_ok db body uuid now)
    as [[He _]|(s & d & p & _ & _ & _ & _ & _ & Hfresh & E)].
  { rewrite H in He. discriminate. }
  rewrite E in H. injection H as <- _.
  match goal with
  | |- context [db ++ [?r]] =>
      set (row := r);
      destruct (select_after_insert db row Hfresh) as [_ Sel]
  end.
  change (Row.id row) with uuid in Sel.
  rewrite (delete_task_present _ uuid row Sel). f_equal.
  pose proof (delete_where_id_absent db uuid Hfresh) as Hdb.
  unfold delete_where_id in *. cbn [fst] in *.
  rewrite filter_app, Hdb. cbn [filter]. change (Row.id row) with uuid.
  rewrite String.eqb_refl. apply app_nil_r.
Qed.

Lemma post_tasks_then_delete_task_witness :
  exists db' t,
    post_tasks iso_parse_ok sample_db
      (body_with (Val "Buy milk") Undefined Undefined) "t4" stamp1
    = (db', Json 201 (TaskJson t))
    /\ delete_task db' "t4"
       = (sample_db, Json 200 (Deleted "Task deleted successfully" "t4")).
Proof.
  do 2 eexists. split; [reflexivity|].
  exact (post_tasks_then_delete_task iso_parse_ok sample_db
           (body_with (Val "Buy milk") Undefined Undefined) "t4" stamp1
           _ _ eq_refl).
Defined.

Lemma like_own_text (s : string) : like (s ++ "%") s = true.
Proof.
  induction s as [|c s IH]; [reflexivity|].
  cbn [append]. destruct (Ascii.eqb c "%") eqn:E.
  - apply Ascii.eqb_eq in E. subst c.
    rewrite like_percent_unfold, (like_percent_unfold _ s), IH.
    apply orb_true_r.
  - rewrite (like_char_unfold c _ _ E), Ascii.eqb_refl, orb_true_r, IH.
    reflexivity.
Qed.

Lemma like_contains_own_text (s : string) : like ("%" ++ s ++ "%") s = true.
Proof.
  change ("%" ++ s ++ "%")%string with (String "%" (s ++ "%")).
  rewrite like_percent_unfold, like_own_text. reflexivity.
Qed.

(** X9. After a successful Create, List without filters returns the tasks
    that were there and the new one, each once, and List with the new
    task's title as the search string returns the new task -- whatever
    characters the title holds. *)
Theorem post_tasks_then_get_tasks (parse_ok : string -> bool) (db : table)
  (body : Body.t) (uuid now : string) (db' : table) (t : Task.t) :
  post_tasks parse_ok db body uuid now = (db', Json 201 (TaskJson t)) ->
  exists out found,
    get_tasks db' no_filters = (db', Json 200 (TaskList out))
    /\ Permutation out (t :: map to_json db)
    /\ get_tasks db'
         (Query.mk Undefined Undefined (Val (Task.title t)) Undefined)
       = (db', Json 200 (TaskList found))
    /\ In t found.
Proof.
  intros H.
  destruct (post_tasks_cases parse_ok db body uuid now)
    as [[He _]|(s & d & p & _ & Hs & _ & _ & _ & Hfresh & E)].
  { rewrite H in He. discriminate. }
  rewrite E in H. injection H as <- <-.
  match goal with
  | |- context [db ++ [?r]] => set (row := r)
  end.
  do 2 eexists. split; [reflexivity|]. split.
  - unfold no_filters. cbn [Query.status Query.priority Query.search].
    rewrite where_no_filters.
    change (to_json row :: map to_json db) with (map to_json (row :: db)).
    apply Permutation_map.
    etransitivity; [apply order_by_perm|].
    etransitivity; [apply Permutation_app_comm|]. reflexivity.
  - split; [reflexivity|].
    apply in_map. eapply Permutation_in;
      [symmetry; apply order_by_perm|].
    apply filter_In. split; [apply in_or_app; right; left; reflexivity|].
    cbn [Query.status Query.priority Query.search to_json Task.title].
    unfold where_search. cbn [truthy].
    change (Row.title row) with (trim s).
    assert (Hne : (trim s =? "") = false).
    { rewrite trim_empty. exact Hs. }
    rewrite Hne. cbn [negb]. rewrite like_contains_own_text. reflexivity.
Qed.

Lemma post_tasks_then_get_tasks_witness :
  exists db' t out found,
    post_tasks iso_parse_ok sample_db
      (body_with (Val "100% done_") Undefined Undefined) "t4" stamp1
    = (db', Json 201 (TaskJson t))
    /\ get_tasks db' no_filters = (db', Json 200 (TaskList out))
    /\ Permutation out (t :: map to_json sample_db)
    /\ get_tasks db'
         (Query.mk Undefined Undefined (Val "100% done_") Undefined)
       = (db', Json 200 (TaskList found))
    /\ In t found.
Proof.
  destruct (post_tasks_then_get_tasks iso_parse_ok sample_db
              (body_with (Val "100% done_") Undefined Undefined)
              "t4" stamp1 _ _ eq_refl) as (out & found & E1 & P & E2 & Hin).
  do 2 eexists. exists out, found.
  split; [reflexivity|]. split; [exact E1|]. split; [exact P|].
  split; [exact E2|exact Hin].
Defined.

(** ** List: filters *)

Lemma where_status_active (r : Row.t) :
  where_status (Val "active") r = (Row.completed r =? 0)%Z.
Proof. reflexivity. Qed.

Lemma where_status_completed (r : Row.t) :
  where_status (Val "completed") r = (Row.completed r =? 1)%Z.
Proof. reflexivity. Qed.

Lemma get_tasks_in (db : table) (query : Query.t) (t : Task.t) :
  In t (map to_json
          (order_by
             (order_clause (with_default (Val "default") (Query.sortBy query)))
             (filter (fun r => where_status (Query.status query) r
                               && where_priority (Query.priority query) r
                               && where_search (Query.search query) r) db)))
  <-> exists r, In r db /\ t = to_json r
                /\ where_status (Query.status query) r = true
                /\ where_priority (Query.priority query) r = true
                /\ where_search (Query.search query) r = true.
Proof.
  rewrite in_map_iff. split.
  - intros (r & <- & Hin).
    apply (Permutation_in _ (order_by_perm _ _)) in Hin.
    apply filter_In in Hin. destruct Hin as [Hin Hw].
    apply andb_true_iff in Hw. destruct Hw as [Hw Hs].
    apply andb_true_iff in Hw. destruct Hw as [Hst Hp].
    exists r. auto.
  - intros (r & Hin & -> & Hst & Hp & Hs).
    exists r. split; [reflexivity|].
    apply (Permutation_in _ (Permutation_sym (order_by_perm _ _))).
    apply filter_In. rewrite Hst, Hp, Hs. auto.
Qed.

(** X10. List answers 200 with tasks of the table only, never more of them
    than there are rows. With status=active every returned task has
    [completed] false and, when no search string is given, every stored
    task with flag 0 that has the requested priority (if one is requested)
    is returned; with status=completed every returned task has [completed]
    true; with a non-empty priority parameter every returned task has
    exactly that priority. This holds for every sort. *)
Theorem get_tasks_filters (db : table) (query : Query.t) :
  exists out,
    get_tasks db query = (db, Json 200 (TaskList out))
    /\ (forall t, In t out -> In t (map to_json db))
    /\ List.length out <= List.length db
    /\ (Query.status query = Val "active" ->
        (forall t, In t out -> Task.completed t = false)
        /\ (forall r, In r db -> Row.completed r = 0%Z ->
              (forall p, Query.priority query = Val p -> p <> "" ->
                         Row.priority r = p) ->
              truthy (Query.search query) = false ->
              In (to_json r) out))
    /\ (Query.status query = Val "completed" ->
        forall t, In t out -> Task.completed t = true)
    /\ (forall p, Query.priority query = Val p -> p <> "" ->
        forall t, In t out -> Task.priority t = p).
Proof.
  eexists. split; [reflexivity|].
  repeat match goal with |- _ /\ _ => split end.
  - intros t Ht. apply get_tasks_in in Ht.
    destruct Ht as (r & Hin & -> & _). apply in_map. exact Hin.
  - rewrite length_map, (Permutation_length (order_by_perm _ _)).
    apply filter_length_le.
  - intros H. split.
    + intros t Ht. apply get_tasks_in in Ht.
      destruct Ht as (r & _ & -> & Hst & _). rewrite H in Hst.
      rewrite where_status_active in Hst.
      apply Z.eqb_eq in Hst. cbn [to_json Task.completed]. rewrite Hst.
      reflexivity.
    + intros r Hin Hc Hp Hs. apply get_tasks_in.
      exists r. split; [exact Hin|]. split; [reflexivity|].
      split; [rewrite H, where_status_active, Hc; reflexivity|]. split.
      * unfold where_priority.
        destruct (Query.priority query) as [| |p] eqn:Ep; try reflexivity.
        cbn [truthy]. destruct (p =? "") eqn:Ee; [reflexivity|].
        cbn [negb]. apply String.eqb_eq. apply (Hp p eq_refl).
        apply String.eqb_neq. exact Ee.
      * unfold where_search.
        destruct (Query.search query) as [| |q]; try reflexivity.
        rewrite Hs. reflexivity.
  - intros H t Ht. apply get_tasks_in in Ht.
    destruct Ht as (r & _ & -> & Hst & _). rewrite H in Hst.
    rewrite where_status_completed in Hst.
    apply Z.eqb_eq in Hst. cbn [to_json Task.completed]. rewrite Hst.
    reflexivity.
  - intros p H Hne t Ht. apply get_tasks_in in Ht.
    destruct Ht as (r & _ & -> & _ & Hp & _). rewrite H in Hp.
    unfold where_priority in Hp. cbn [truthy] in Hp.
    apply String.eqb_neq in Hne. rewrite Hne in Hp. cbn [negb] in Hp.
    apply String.eqb_eq in Hp. exact Hp.
Qed.

Lemma get_tasks_filters_witness :
  exists out,
    get_tasks sorting_db
      (Query.mk (Val "active") (Val "high") Undefined Undefined)
    = (sorting_db, Json 200 (TaskList out))
    /\ (forall t, In t out ->
          Task.completed t = false /\ Task.priority t = "high")
    /\ In (to_json (sample_row "c" "No date, high, older" None "high" 0
                      "2024-01-12T09:00:00.000Z")) out
    /\ map Task.id out = ["c"].
Proof.
  destruct (get_tasks_filters sorting_db
              (Query.mk (Val "active") (Val "high") Undefined Undefined))
    as (out & E & _ & _ & Ha & _ & Hp).
  exists out. split; [exact E|]. split; [|split].
  - intros t Ht. split.
    + apply (proj1 (Ha eq_refl)). exact Ht.
    + apply (Hp "high" eq_refl); [discriminate|exact Ht].
  - apply (proj2 (Ha eq_refl)).
    + simpl. auto.
    + reflexivity.
    + intros p [= <-] _. reflexivity.
    + reflexivity.
  - injection E as <-. reflexivity.
Defined.

Lemma status_partition (db : table) (w : Row.t -> bool) :
  Forall row_ok db ->
  Permutation
    (filter (fun r => where_status (Val "active") r && w r) db
     ++ filter (fun r => where_status (Val "completed") r && w r) db)
    (filter w db).
Proof.
  induction 1 as [|r db (_ & _ & _ & _ & Hc) _ IH]; [constructor|].
  cbn [filter]. rewrite where_status_active, where_status_completed.
  destruct Hc as [-> | ->]; cbn [Z.eqb Pos.eqb andb]; destruct (w r).
  - cbn [app]. constructor. exact IH.
  - exact IH.
  - etransitivity; [symmetry; apply Permutation_middle|].
    constructor. exact IH.
  - exact IH.
Qed.

(** X11. On a table whose completion flags are 0 or 1, the tasks List
    returns for status=active and those it returns for status=completed
    are together exactly the tasks it returns without a status filter
    (with the same priority and search parameters): no task is in both
    lists and none is missing. *)
Theorem get_tasks_status_partition (db : table)
  (priority search sortBy : field string) :
  Forall row_ok db ->
  exists active completed all,
    get_tasks db (Query.mk (Val "active") priority search sortBy)
    = (db, Json 200 (TaskList active))
    /\ get_tasks db (Query.mk (Val "completed") priority search sortBy)
       = (db, Json 200 (TaskList completed))
    /\ get_tasks db (Query.mk Undefined priority search sortBy)
       = (db, Json 200 (TaskList all))
    /\ Permutation (active ++ completed) all
    /\ (forall t, In t active -> In t completed -> False).
Proof.
  intros Hok. do 3 eexists.
  split; [reflexivity|]. split; [reflexivity|]. split; [reflexivity|].
  cbn [Query.status Query.priority Query.search Query.sortBy]. split.
  - rewrite <- map_app. apply Permutation_map.
    etransitivity;
      [apply Permutation_app; apply order_by_perm|].
    etransitivity; [|symmetry; apply order_by_perm].
    rewrite (filter_ext _
               (fun r => where_status (Val "active") r
                         && (where_priority priority r
                             && where_search search r)))
      by (intros r; symmetry; apply andb_assoc).
    rewrite (filter_ext
               (fun r => where_status (Val "completed") r
                         && where_priority priority r
                         && where_search search r)
               (fun r => where_status (Val "completed") r
                         && (where_priority priority r
                             && where_search search r)))
      by (intros r; symmetry; apply andb_assoc).
    apply (status_partition db
             (fun r => where_priority priority r && where_search search r)
             Hok).
  - intros t Ha Hc.
    apply (get_tasks_in db (Query.mk (Val "active") priority search sortBy))
      in Ha.
    apply (get_tasks_in db
             (Query.mk (Val "completed") priority search sortBy)) in Hc.
    destruct Ha as (r1 & _ & -> & H1 & _).
    destruct Hc as (r2 & _ & E & H2 & _).
    cbn [Query.status] in H1, H2.
    rewrite where_status_active in H1. rewrite where_status_completed in H2.
    apply Z.eqb_eq in H1, H2.
    apply (f_equal Task.completed) in E. cbn in E.
    rewrite H1, H2 in E. discriminate.
Qed.

Lemma get_tasks_status_partition_witness :
  exists active completed all,
    get_tasks sorting_db (Query.mk (Val "active") Undefined Undefined Undefined)
    = (sorting_db, Json 200 (TaskList active))
    /\ get_tasks sorting_db
         (Query.mk (Val "completed") Undefined Undefined Undefined)
       = (sorting_db, Json 200 (TaskList completed))
    /\ get_tasks sorting_db no_filters
       = (sorting_db, Json 200 (TaskList all))
    /\ Permutation (active ++ completed) all
    /\ map Task.id active = ["d"; "b"; "c"; "a"]
    /\ map Task.id completed = ["e"].
Proof.
  assert (Hok : Forall row_ok sorting_db).
  { repeat (constructor;
            [repeat split; try reflexivity; simpl; auto 6|]).
    constructor. }
  destruct (get_tasks_status_partition sorting_db Undefined Undefined
              Undefined Hok)
    as (active & completed & all & Ea & Ec & Eall & P & _).
  exists active, completed, all.
  split; [exact Ea|]. split; [exact Ec|]. split; [exact Eall|].
  split; [exact P|].
  injection Ea as <-. injection Ec as <-. split; reflexivity.
Defined.

(** ** List: the other sort orders *)

Lemma Order_clause (sortBy : field string) : Order (order_clause sortBy).
Proof.
  unfold order_clause.
  destruct (strict_eq sortBy "dueDate"); [exact Order_dueDate|].
  destruct (strict_eq sortBy "priority"); [exact Order_priority|].
  destruct (strict_eq sortBy "createdAt"); [exact Order_createdAt|].
  exact Order_default.
Qed.

(** Two tasks of a List answer come from two rows that the ORDER BY
    clause of the request puts in this order. *)
Lemma get_tasks_sorted (db : table) (query : Query.t) (out : list Task.t)
  (i j : nat) (a b : Task.t) :
  get_tasks db query = (db, Json 200 (TaskList out)) ->
  i < j -> nth_error out i = Some a -> nth_error out j = Some b ->
  exists ra rb,
    a = to_json ra /\ b = to_json rb
    /\ le_by (order_clause (with_default (Val "default")
                              (Query.sortBy query))) ra rb.
Proof.
  unfold get_tasks. intros E Hij Ha Hb. injection E as <-.
  rewrite nth_error_map in Ha, Hb.
  destruct (nth_error _ i) as [ra|] eqn:Era; [|discriminate].
  destruct (nth_error _ j) as [rb|] eqn:Erb; [|discriminate].
  injection Ha as <-. injection Hb as <-.
  exists ra, rb. split; [reflexivity|]. split; [reflexivity|].
  exact (sorted_nth _ _
           (order_by_sorted _ (O := Order_clause _) _)
           i j ra rb Hij Era Erb).
Qed.

Lemma order_dueDate_le (ra rb : Row.t) :
  le_by order_dueDate ra rb ->
  (Row.dueDate ra = None -> Row.dueDate rb = None)
  /\ (forall da db0, Row.dueDate ra = Some da -> Row.dueDate rb = Some db0 ->
                     String.leb da db0 = true).
Proof.
  unfold le_by, order_dueDate, due_is_null.
  destruct (Row.dueDate ra) as [da|], (Row.dueDate rb) as [db0|];
    cbn [Nat.compare lex compare_null]; intros H.
  - split; [discriminate|].
    intros x y [= <-] [= <-]. apply string_leb_of_compare. exact H.
  - split; discriminate.
  - exfalso. apply H. reflexivity.
  - split; [reflexivity|discriminate].
Qed.

(** X12. In a List answer sorted by dueDate no task without a due date is
    before one with a due date and due dates are in ascending order of
    their text; sorted by priority no medium or low task is before a high
    one and no low task before a medium one; sorted by createdAt the
    creation stamps never increase. These hold under any filter. *)
Theorem get_tasks_other_sorts (db : table) (query : Query.t)
  (out : list Task.t) (i j : nat) (a b : Task.t) :
  get_tasks db query = (db, Json 200 (TaskList out)) ->
  i < j -> nth_error out i = Some a -> nth_error out j = Some b ->
  (Query.sortBy query = Val "dueDate" ->
   (Task.dueDate a = None -> Task.dueDate b = None)
   /\ (forall da db0, Task.dueDate a = Some da -> Task.dueDate b = Some db0 ->
                      String.leb da db0 = true))
  /\ (Query.sortBy query = Val "priority" ->
      le_by (compare_null Nat.compare)
        (priority_rank (Task.priority a)) (priority_rank (Task.priority b))
      /\ (Task.priority b = "high" ->
          Task.priority a <> "medium" /\ Task.priority a <> "low")
      /\ (Task.priority b = "medium" -> Task.priority a <> "low"))
  /\ (Query.sortBy query = Val "createdAt" ->
      String.leb (Task.createdAt b) (Task.createdAt a) = true).
Proof.
  intros E Hij Ha Hb.
  destruct (get_tasks_sorted db query out i j a b E Hij Ha Hb)
    as (ra & rb & -> & -> & Hle).
  cbn [to_json Task.dueDate Task.priority Task.createdAt].
  split; [|split]; intros Hs; rewrite Hs in Hle.
  - apply order_dueDate_le. exact Hle.
  - change (le_by order_priority ra rb) in Hle.
    unfold le_by, order_priority in Hle. unfold le_by.
    split; [exact Hle|]. split.
    + intros Eb. rewrite Eb in Hle.
      split; intros Ea; rewrite Ea in Hle; apply Hle; reflexivity.
    + intros Eb Ea. rewrite Eb, Ea in Hle. apply Hle. reflexivity.
  - change (le_by order_createdAt ra rb) in Hle.
    apply string_leb_of_compare. exact Hle.
Qed.

Lemma get_tasks_other_sorts_witness :
  map Task.id
    (match snd (get_tasks sorting_db
                  (Query.mk Undefined Undefined Undefined (Val "createdAt")))
     with
     | Json _ (TaskList out) => out
     | _ => []
     end)
  = ["e"; "d"; "c"; "b"; "a"]
  /\ String.leb "2024-01-10T09:00:00.000Z" "2024-01-14T09:00:00.000Z" = true.
Proof.
  split; [reflexivity|].
  apply (proj2 (proj2 (get_tasks_other_sorts sorting_db
           (Query.mk Undefined Undefined Undefined (Val "createdAt"))
           _ 0 4 _ _ eq_refl (Nat.lt_0_succ 3) eq_refl eq_refl))).
  reflexivity.
Defined.

(** ** List: parameters that do not filter *)

(** X13. The request [fetchTasks] builds from the filter state -- without
    status when it is "all", without a priority or search that is null or
    empty, without an empty sortBy -- gets the same answer from List as a
    request carrying every filter value as it is: leaving them out changes
    nothing. *)
Theorem filterParams_are_neutral (db : table) (filters : Filters.t) :
  get_tasks db (filterParams_of filters)
  = get_tasks db
      (Query.mk (Val (Filters.status filters))
         (match Filters.priority filters with
          | Some p => Val p
          | None => Null
          end)
         (Val (Filters.search filters))
         (Val (Filters.sortBy filters))).
Proof.
  destruct filters as [status priority search sortBy].
  unfold get_tasks, filterParams_of.
  cbn [Filters.status Filters.priority Filters.search Filters.sortBy
         Query.status Query.priority Query.search Query.sortBy].
  assert (Hst : forall r,
            where_status (if negb (status =? "all") then Val status
                          else Undefined) r
            = where_status (Val status) r).
  { intros r. destruct (status =? "all") eqn:E; [|reflexivity].
    apply String.eqb_eq in E. subst status. reflexivity. }
  assert (Hp : forall r,
            where_priority
              (match priority with
               | Some p => if truthy (Val p) then Val p else Undefined
               | None => Undefined
               end) r
            = where_priority
                (match priority with Some p => Val p | None => Null end) r).
  { intros r. destruct priority as [p|]; [|reflexivity].
    unfold where_priority. destruct (truthy (Val p)) eqn:E; [|reflexivity].
    rewrite E. reflexivity. }
  assert (Hs : forall r,
            where_search (if truthy (Val search) then Val search
                          else Undefined) r
            = where_search (Val search) r).
  { intros r. unfold where_search.
    destruct (truthy (Val search)) eqn:E; [|reflexivity].
    rewrite E. reflexivity. }
  assert (Ho : order_clause
                 (with_default (Val "default")
                    (if truthy (Val sortBy) then Val sortBy else Undefined))
               = order_clause (with_default (Val "default") (Val sortBy))).
  { cbn [truthy]. destruct (sortBy =? "") eqn:E; [|reflexivity].
    apply String.eqb_eq in E. subst sortBy. reflexivity. }
  rewrite Ho. do 4 f_equal. f_equal.
  apply filter_ext. intros r. rewrite Hst, Hp, Hs. reflexivity.
Qed.

(** ** List: the search ignores ASCII case *)

Lemma to_lower_idempotent (c : ascii) : to_lower (to_lower c) = to_lower c.
Proof. destruct c as [[] [] [] [] [] [] [] []]; reflexivity. Qed.

Lemma to_lower_percent (c : ascii) :
  Ascii.eqb (to_lower c) "%" = Ascii.eqb c "%".
Proof. destruct c as [[] [] [] [] [] [] [] []]; reflexivity. Qed.

Lemma to_lower_underscore (c : ascii) :
  Ascii.eqb (to_lower c) "_" = Ascii.eqb c "_".
Proof. destruct c as [[] [] [] [] [] [] [] []]; reflexivity. Qed.

Lemma like_lower_pattern (p t : string) : like (lower p) t = like p t.
Proof.
  revert t. induction p as [|c p IH]; intros t; [reflexivity|].
  cbn [lower]. destruct (Ascii.eqb c "%") eqn:E.
  - apply Ascii.eqb_eq in E. subst c.
    change (to_lower "%") with "%"%char.
    induction t as [|d t IHt].
    + rewrite !like_percent_unfold, IH. reflexivity.
    + rewrite (like_percent_unfold (lower p)), (like_percent_unfold p),
        IH, IHt. reflexivity.
  - assert (E' : Ascii.eqb (to_lower c) "%" = false)
      by (rewrite to_lower_percent; exact E).
    rewrite (like_char_unfold _ _ _ E'), (like_char_unfold _ _ _ E).
    destruct t as [|d t]; [reflexivity|].
    rewrite to_lower_underscore, to_lower_idempotent, IH. reflexivity.
Qed.

Lemma lower_empty (s : string) : (lower s =? "") = (s =? "").
Proof. destruct s; reflexivity. Qed.

Lemma lower_append (s t : string) :
  lower (s ++ t) = (lower s ++ lower t)%string.
Proof.
  induction s as [|c s IH]; [reflexivity|].
  cbn [append lower]. rewrite IH. reflexivity.
Qed.

Lemma where_search_lower (s : string) (r : Row.t) :
  where_search (Val s) r = where_search (Val (lower s)) r.
Proof.
  unfold where_search. cbn [truthy]. rewrite lower_empty.
  destruct (s =? ""); [reflexivity|]. cbn [negb].
  rewrite <- !(like_lower_pattern ("%" ++ s ++ "%")).
  rewrite !lower_append. reflexivity.
Qed.

(** X14. Two search strings that differ only in the case of ASCII letters
    get the same answer from List, under the same other parameters. *)
Theorem get_tasks_search_ignores_case (db : table)
  (status priority sortBy : field string) (s1 s2 : string) :
  lower s1 = lower s2 ->
  get_tasks db (Query.mk status priority (Val s1) sortBy)
  = get_tasks db (Query.mk status priority (Val s2) sortBy).
Proof.
  intros H. unfold get_tasks.
  cbn [Query.status Query.priority Query.search Query.sortBy].
  do 4 f_equal. f_equal. apply filter_ext. intros r.
  rewrite (where_search_lower s1), (where_search_lower s2), H. reflexivity.
Qed.

Lemma get_tasks_search_ignores_case_witness :
  get_tasks sample_db (Query.mk Undefined Undefined (Val "PULL") Undefined)
  = get_tasks sample_db (Query.mk Undefined Undefined (Val "pull") Undefined)
  /\ get_tasks sample_db (Query.mk Undefined Undefined (Val "pull") Undefined)
     = (sample_db,
        Json 200 (TaskList
          [to_json (sample_row "t2" "Review pull requests" None "medium" 0
                      stamp0)])).
Proof.
  split; [|reflexivity].
  apply get_tasks_search_ignores_case. reflexivity.
Defined.

(** ** Bulk actions: what the id list means *)

Lemma post_bulk_table (db : table) (action : field string)
  (ids : list string) (now : string) :
  ids <> [] ->
  fst (post_bulk db (Bulk.mk action (Val ids)) now)
  = if strict_eq action "complete" then
      map (fun r => if in_dec string_dec (Row.id r) ids
                    then set_completed 1 now r else r) db
    else if strict_eq action "uncomplete" then
      map (fun r => if in_dec string_dec (Row.id r) ids
                    then set_completed 0 now r else r) db
    else if strict_eq action "delete" then
      filter (fun r => if in_dec string_dec (Row.id r) ids
                       then false else true) db
    else db.
Proof.
  intros Hne. unfold post_bulk. cbn [Bulk.taskIds Bulk.action].
  destruct ids as [|id0 ids]; [congruence|].
  assert (Hs : forall c r, Row.id (set_completed c now r) = Row.id r)
    by reflexivity.
  assert (Hi : forall c r, set_completed c now (set_completed c now r)
                           = set_completed c now r) by reflexivity.
  destruct (strict_eq action "complete");
    [cbn [fst]; apply for_each_update; auto|].
  destruct (strict_eq action "uncomplete");
    [cbn [fst]; apply for_each_update; auto|].
  destruct (strict_eq action "delete");
    [cbn [fst]; apply for_each_delete|reflexivity].
Qed.

(** X15. The table a bulk action leaves depends only on which ids are
    listed, not on their order or on how often one occurs (only [count]
    in the answer does). *)
Theorem post_bulk_ignores_order_and_repeats (db : table)
  (action : field string) (ids1 ids2 : list string) (now : string) :
  ids1 <> [] -> ids2 <> [] ->
  (forall id, In id ids1 <-> In id ids2) ->
  fst (post_bulk db (Bulk.mk action (Val ids1)) now)
  = fst (post_bulk db (Bulk.mk action (Val ids2)) now).
Proof.
  intros H1 H2 Hsame.
  rewrite (post_bulk_table db action ids1 now H1),
    (post_bulk_table db action ids2 now H2).
  assert (Hdec : forall (A : Type) (x y : A) r,
            (if in_dec string_dec (Row.id r) ids1 then x else y)
            = (if in_dec string_dec (Row.id r) ids2 then x else y)).
  { intros A x y r.
    destruct (in_dec string_dec (Row.id r) ids1) as [i|n],
      (in_dec string_dec (Row.id r) ids2) as [i'|n']; try reflexivity.
    - exfalso. apply n', Hsame, i.
    - exfalso. apply n, Hsame, i'. }
  destruct (strict_eq action "complete");
    [apply map_ext; intros r; apply Hdec|].
  destruct (strict_eq action "uncomplete");
    [apply map_ext; intros r; apply Hdec|].
  destruct (strict_eq action "delete"); [|reflexivity].
  apply filter_ext. intros r. apply Hdec.
Qed.

Lemma post_bulk_ignores_order_and_repeats_witness :
  fst (post_bulk sample_db
         (Bulk.mk (Val "complete") (Val ["t3"; "t1"; "t3"])) stamp1)
  = fst (post_bulk sample_db
           (Bulk.mk (Val "complete") (Val ["t1"; "t3"])) stamp1)
  /\ snd (post_bulk sample_db
            (Bulk.mk (Val "complete") (Val ["t3"; "t1"; "t3"])) stamp1)
     = Json 200 (BulkDone "3 tasks updated" 3).
Proof.
  split; [|reflexivity].
  apply post_bulk_ignores_order_and_repeats; try discriminate.
  intros id. simpl. tauto.
Defined.

(** X16. Sending the same bulk request again absorbs the first one: the
    second request, run on the table the first left, gives the table and
    the answer it would have given on the original table. *)
Theorem post_bulk_twice (db : table) (body : Bulk.t) (now1 now2 : string) :
  post_bulk (fst (post_bulk db body now1)) body now2 = post_bulk db body now2.
Proof.
  destruct body as [action taskIds].
  destruct taskIds as [| |[|id0 ids]]; try reflexivity.
  assert (Hne : id0 :: ids <> []) by discriminate.
  apply injective_projections.
  - rewrite !(post_bulk_table _ action (id0 :: ids) _ Hne).
    destruct (strict_eq action "complete") eqn:E1.
    { rewrite map_map. apply map_ext. intros r.
      destruct (in_dec string_dec (Row.id r) (id0 :: ids)) as [i|n];
        cbn [set_completed Row.id];
        [destruct (in_dec string_dec (Row.id r) (id0 :: ids));
           [reflexivity|contradiction]
        |destruct (in_dec string_dec (Row.id r) (id0 :: ids));
           [contradiction|reflexivity]]. }
    destruct (strict_eq action "uncomplete") eqn:E2.
    { rewrite map_map. apply map_ext. intros r.
      destruct (in_dec string_dec (Row.id r) (id0 :: ids)) as [i|n];
        cbn [set_completed Row.id];
        [destruct (in_dec string_dec (Row.id r) (id0 :: ids));
           [reflexivity|contradiction]
        |destruct (in_dec string_dec (Row.id r) (id0 :: ids));
           [contradiction|reflexivity]]. }
    destruct (strict_eq action "delete") eqn:E3; [|reflexivity].
    induction db as [|r db IH]; [reflexivity|].
    cbn [filter].
    destruct (in_dec string_dec (Row.id r) (id0 :: ids)) as [i|n] eqn:Ed;
      [exact IH|].
    cbn [filter]. rewrite Ed, IH. reflexivity.
  - unfold post_bulk. cbn [Bulk.taskIds Bulk.action].
    destruct (strict_eq action "complete"); [reflexivity|].
    destruct (strict_eq action "uncomplete"); [reflexivity|].
    destruct (strict_eq action "delete"); reflexivity.
Qed.

Lemma fst_delete_task (db : table) (id : string) :
  fst (delete_task db id) = fst (delete_where_id db id).
Proof.
  destruct (delete_task_cases db id) as [[Hn E]|(r & _ & E)]; rewrite E.
  - symmetry. apply delete_where_id_absent. exact Hn.
  - reflexivity.
Qed.

(** X17. The bulk action delete leaves the table that single Delete
    requests for the listed ids, one after the other, leave (ids without
    a row answering 404 on the way). *)
Theorem post_bulk_delete_is_repeated_delete (db : table)
  (ids : list string) (now : string) :
  ids <> [] ->
  fst (post_bulk db (Bulk.mk (Val "delete") (Val ids)) now)
  = fold_left (fun d id => fst (delete_task d id)) ids db.
Proof.
  intros Hne. unfold post_bulk. cbn [Bulk.taskIds Bulk.action].
  destruct ids as [|id0 ids]; [congruence|].
  change (strict_eq (Val "delete") "complete") with false.
  change (strict_eq (Val "delete") "uncomplete") with false.
  change (strict_eq (Val "delete") "delete") with true.
  cbv iota. cbn [fst]. unfold for_each.
  generalize (id0 :: ids). intros l. revert db.
  induction l as [|id l IH]; intros db; [reflexivity|].
  cbn [fold_left]. rewrite fst_delete_task. apply IH.
Qed.

Lemma post_bulk_delete_is_repeated_delete_witness :
  fst (post_bulk sample_db (Bulk.mk (Val "delete") (Val ["t3"; "ghost"; "t1"]))
         stamp1)
  = fst (delete_task
           (fst (delete_task (fst (delete_task sample_db "t3")) "ghost"))
           "t1")
  /\ snd (delete_task (fst (delete_task sample_db "t3")) "ghost")
     = Error 404 "Task not found".
Proof.
  split; [|reflexivity].
  apply (post_bulk_delete_is_repeated_delete sample_db
           ["t3"; "ghost"; "t1"] stamp1).
  discriminate.
Defined.

(** * Further properties of the hook *)

(** ** Running a callback step by step *)

Lemma run_SetTasks {R : Type} (api : server)
  (u : list Task.t -> list Task.t) (k : prog R) (st : HookState.t) :
  state_after api (SetTasks u k) st
  = state_after api k
      (HookState.mk (u (HookState.tasks st)) (HookState.loading st)
         (HookState.error st) (HookState.filters st))
  /\ outcome api (SetTasks u k) st
     = outcome api k
         (HookState.mk (u (HookState.tasks st)) (HookState.loading st)
            (HookState.error st) (HookState.filters st)).
Proof.
  unfold state_after, outcome. cbn [run].
  destruct (run api k _) as [[s tr] r]. split; reflexivity.
Qed.

Lemma run_SetLoading {R : Type} (api : server) (b : bool) (k : prog R)
  (st : HookState.t) :
  state_after api (SetLoading b k) st
  = state_after api k
      (HookState.mk (HookState.tasks st) b (HookState.error st)
         (HookState.filters st))
  /\ outcome api (SetLoading b k) st
     = outcome api k
         (HookState.mk (HookState.tasks st) b (HookState.error st)
            (HookState.filters st)).
Proof.
  unfold state_after, outcome. cbn [run].
  destruct (run api k _) as [[s tr] r]. split; reflexivity.
Qed.

Lemma run_SetError {R : Type} (api : server) (e : option string)
  (k : prog R) (st : HookState.t) :
  state_after api (SetError e k) st
  = state_after api k
      (HookState.mk (HookState.tasks st) (HookState.loading st) e
         (HookState.filters st))
  /\ outcome api (SetError e k) st
     = outcome api k
         (HookState.mk (HookState.tasks st) (HookState.loading st) e
            (HookState.filters st)).
Proof.
  unfold state_after, outcome. cbn [run].
  destruct (run api k _) as [[s tr] r]. split; reflexivity.
Qed.

Lemma run_Await {R A : Type} (api : server) (c : api_call A)
  (k : A + string -> prog R) (st : HookState.t) :
  state_after api (Await c k) st = state_after api (k (api A c)) st
  /\ outcome api (Await c k) st = outcome api (k (api A c)) st.
Proof.
  unfold state_after, outcome. cbn [run].
  destruct (run api (k (api A c)) st) as [[s tr] r]. split; reflexivity.
Qed.

Lemma trace_SetLoading {R : Type} (api : server) (b : bool) (k : prog R)
  (st : HookState.t) :
  trace api (SetLoading b k) st
  = EvSetLoading b
    :: trace api k (HookState.mk (HookState.tasks st) b (HookState.error st)
                      (HookState.filters st)).
Proof.
  unfold trace. cbn [run].
  destruct (run api k _) as [[s tr] r]. reflexivity.
Qed.

(** What a run of [fetchTasks] leaves, by the answer to its request. *)
Lemma fetchTasks_run (api : server) (st : HookState.t) :
  outcome api fetchTasks st = inl tt
  /\ state_after api fetchTasks st
     = match api _ (getTasks (filterParams_of (HookState.filters st))) with
       | inl fetchedTasks =>
           HookState.mk fetchedTasks false None (HookState.filters st)
       | inr message =>
           HookState.mk (HookState.tasks st) false (Some message)
             (HookState.filters st)
       end
  /\ trace api fetchTasks st
     = EvSetLoading true :: EvSetError None
       :: EvApi (getTasks (filterParams_of (HookState.filters st)))
       :: match api _ (getTasks (filterParams_of (HookState.filters st))) with
          | inl fetchedTasks => [EvSetTasks fetchedTasks; EvSetLoading false]
          | inr message => [EvSetError (Some message); EvSetLoading false]
          end.
Proof.
  unfold fetchTasks, setLoading, setError, setTasks, await.
  cbn [bind try_catch].
  rewrite (proj1 (run_SetLoading _ _ _ _)), (proj2 (run_SetLoading _ _ _ _)),
    (proj1 (run_SetError _ _ _ _)), (proj2 (run_SetError _ _ _ _)),
    trace_SetLoading, trace_SetError.
  unfold state_after, outcome, trace. cbn [run HookState.filters].
  fold (filterParams_of (HookState.filters st)).
  destruct (api (list Task.t)
              (getTasks (filterParams_of (HookState.filters st))));
    repeat split.
Qed.

(** X18. [fetchTasks] never throws and always ends with [loading] false.
    It sends one list request, built from the filter state with the falsy
    filters left out. If the request resolves, the local collection is the
    list received and [error] is null; if it rejects, the collection is
    what it was and [error] is the message. The filters are untouched. *)
Theorem fetchTasks_settles (api : server) (st : HookState.t) :
  outcome api fetchTasks st = inl tt
  /\ HookState.loading (state_after api fetchTasks st) = false
  /\ HookState.filters (state_after api fetchTasks st) = HookState.filters st
  /\ (exists rest,
        trace api fetchTasks st
        = EvSetLoading true :: EvSetError None
          :: EvApi (getTasks (filterParams_of (HookState.filters st)))
          :: rest
        /\ forall A (c : api_call A), ~ In (EvApi c) rest)
  /\ (forall fetchedTasks,
        api _ (getTasks (filterParams_of (HookState.filters st)))
        = inl fetchedTasks ->
        HookState.tasks (state_after api fetchTasks st) = fetchedTasks
        /\ HookState.error (state_after api fetchTasks st) = None)
  /\ (forall message,
        api _ (getTasks (filterParams_of (HookState.filters st)))
        = inr message ->
        HookState.tasks (state_after api fetchTasks st) = HookState.tasks st
        /\ HookState.error (state_after api fetchTasks st) = Some message).
Proof.
  destruct (fetchTasks_run api st) as (Ho & Hs & Ht).
  rewrite Hs, Ht. split; [exact Ho|].
  destruct (api (list Task.t)
              (getTasks (filterParams_of (HookState.filters st))))
    as [l|m];
    (split; [reflexivity|]); (split; [reflexivity|]);
    (split;
     [eexists; split; [reflexivity|];
      intros A c [H|[H|[]]]; discriminate|]);
    split; intros x Hx;
    first [discriminate|injection Hx as <-; split; reflexivity].
Qed.

Lemma fetchTasks_settles_witness :
  state_after sample_server fetchTasks
    (HookState.mk [] true (Some "stale") (Filters.mk "all" None "" "default"))
  = sample_state
  /\ state_after failing_server fetchTasks sample_state
     = HookState.mk (map to_json sample_db) false (Some "Network error")
         (Filters.mk "all" None "" "default")
  /\ HookState.error (state_after failing_server fetchTasks sample_state)
     = Some "Network error".
Proof.
  split; [reflexivity|]. split; [reflexivity|].
  apply (proj2 (proj2 (proj2 (proj2 (proj2
           (fetchTasks_settles failing_server sample_state)))))
           "Network error").
  reflexivity.
Defined.

(** ** Sequencing and [try]/[catch] *)

Lemma run_bind {A B : Type} (api : server) (p : prog A) (f : A -> prog B) :
  forall st,
    state_after api (bind p f) st
    = match outcome api p st with
      | inl a => state_after api (f a) (state_after api p st)
      | inr _ => state_after api p st
      end
    /\ outcome api (bind p f) st
       = match outcome api p st with
         | inl a => outcome api (f a) (state_after api p st)
         | inr m => inr m
         end.
Proof.
  induction p as [r|m|u k IH|b k IH|e k IH|k IH|k IH|T c k IH]; intros st;
    cbn [bind].
  - split; reflexivity.
  - split; reflexivity.
  - rewrite !(proj1 (run_SetTasks _ _ _ _)), !(proj2 (run_SetTasks _ _ _ _)).
    apply IH.
  - rewrite !(proj1 (run_SetLoading _ _ _ _)),
      !(proj2 (run_SetLoading _ _ _ _)).
    apply IH.
  - rewrite !(proj1 (run_SetError _ _ _ _)), !(proj2 (run_SetError _ _ _ _)).
    apply IH.
  - apply (IH (HookState.tasks st) st).
  - apply (IH (HookState.filters st) st).
  - rewrite !(proj1 (run_Await _ _ _ _)), !(proj2 (run_Await _ _ _ _)).
    apply IH.
Qed.

Lemma run_try_catch {R : Type} (api : server) (p : prog R)
  (handler : string -> prog R) :
  forall st,
    state_after api (try_catch p handler) st
    = match outcome api p st with
      | inl _ => state_after api p st
      | inr m => state_after api (handler m) (state_after api p st)
      end
    /\ outcome api (try_catch p handler) st
       = match outcome api p st with
         | inl r => inl r
         | inr m => outcome api (handler m) (state_after api p st)
         end.
Proof.
  induction p as [r|m|u k IH|b k IH|e k IH|k IH|k IH|T c k IH]; intros st;
    cbn [try_catch].
  - split; reflexivity.
  - split; reflexivity.
  - rewrite !(proj1 (run_SetTasks _ _ _ _)), !(proj2 (run_SetTasks _ _ _ _)).
    apply IH.
  - rewrite !(proj1 (run_SetLoading _ _ _ _)),
      !(proj2 (run_SetLoading _ _ _ _)).
    apply IH.
  - rewrite !(proj1 (run_SetError _ _ _ _)), !(proj2 (run_SetError _ _ _ _)).
    apply IH.
  - apply (IH (HookState.tasks st) st).
  - apply (IH (HookState.filters st) st).
  - rewrite !(proj1 (run_Await _ _ _ _)), !(proj2 (run_Await _ _ _ _)).
    apply IH.
Qed.

(** The [catch] block of update, toggle and delete: record the message,
    refetch, rethrow. The refetch starts by clearing [error]. *)
Lemma revert_on_error_run (R : Type) (api : server) (message : string)
  (st : HookState.t) :
  outcome api
    (bind (setError (Some message))
       (fun _ => bind fetchTasks (fun _ => @Throw R message))) st
  = inr message
  /\ state_after api
       (bind (setError (Some message))
          (fun _ => bind fetchTasks (fun _ => @Throw R message))) st
     = match api _ (getTasks (filterParams_of (HookState.filters st))) with
       | inl fetchedTasks =>
           HookState.mk fetchedTasks false None (HookState.filters st)
       | inr message' =>
           HookState.mk (HookState.tasks st) false (Some message')
             (HookState.filters st)
       end.
Proof.
  unfold setError. cbn [bind].
  rewrite (proj1 (run_SetError _ _ _ _)), (proj2 (run_SetError _ _ _ _)).
  rewrite (proj1 (run_bind _ _ _ _)), (proj2 (run_bind _ _ _ _)).
  destruct (fetchTasks_run api
              (HookState.mk (HookState.tasks st) (HookState.loading st)
                 (Some message) (HookState.filters st))) as (Ho & Hs & _).
  rewrite Ho, Hs. cbn [HookState.filters HookState.tasks].
  split; reflexivity.
Qed.

(** ** The mutations, by the answer of the server *)

Ltac run_steps :=
  repeat first
    [ rewrite (proj1 (run_SetError _ _ _ _))
    | rewrite (proj2 (run_SetError _ _ _ _))
    | rewrite (proj1 (run_SetTasks _ _ _ _))
    | rewrite (proj2 (run_SetTasks _ _ _ _))
    | rewrite (proj1 (run_Await _ _ _ _))
    | rewrite (proj2 (run_Await _ _ _ _)) ].

Lemma updateTaskData_run (api : server) (st : HookState.t) (id : string)
  (updates : Updates.t) :
  match api _ (updateTask id updates) with
  | inl updatedTask =>
      outcome api (updateTaskData id updates) st = inl updatedTask
      /\ state_after api (updateTaskData id updates) st
         = HookState.mk
             (map (fun task => if Task.id task =? id then updatedTask
                               else task)
                (map (fun task => if Task.id task =? id
                                  then spread task updates else task)
                   (HookState.tasks st)))
             (HookState.loading st) None (HookState.filters st)
  | inr message =>
      outcome api (updateTaskData id updates) st = inr message
      /\ state_after api (updateTaskData id updates) st
         = match api _ (getTasks (filterParams_of (HookState.filters st)))
           with
           | inl fetchedTasks =>
               HookState.mk fetchedTasks false None (HookState.filters st)
           | inr message' =>
               HookState.mk
                 (map (fun task => if Task.id task =? id
                                   then spread task updates else task)
                    (HookState.tasks st))
                 false (Some message') (HookState.filters st)
           end
  end.
Proof.
  unfold updateTaskData.
  match goal with
  | |- context [try_catch ?p ?h] => set (body := p); set (handler := h)
  end.
  assert (Hbody :
    outcome api body st
    = match api _ (updateTask id updates) with
      | inl updatedTask => inl updatedTask
      | inr message => inr message
      end
    /\ state_after api body st
       = HookState.mk
           (match api _ (updateTask id updates) with
            | inl updatedTask =>
                map (fun task => if Task.id task =? id then updatedTask
                                 else task)
                  (map (fun task => if Task.id task =? id
                                    then spread task updates else task)
                     (HookState.tasks st))
            | inr _ =>
                map (fun task => if Task.id task =? id
                                 then spread task updates else task)
                  (HookState.tasks st)
            end)
           (HookState.loading st) None (HookState.filters st)).
  { unfold body, setError, setTasks, await. cbn [bind]. run_steps.
    destruct (api Task.t (updateTask id updates)) as [t'|m]; cbn [bind];
      run_steps; split; reflexivity. }
  destruct Hbody as [Ho Hs].
  rewrite (proj1 (run_try_catch _ _ _ _)), (proj2 (run_try_catch _ _ _ _)),
    Ho, Hs.
  destruct (api Task.t (updateTask id updates)) as [t'|m].
  - split; reflexivity.
  - unfold handler. apply revert_on_error_run.
Qed.

Lemma toggleTaskCompletion_run (api : server) (st : HookState.t)
  (id : string) :
  match api _ (toggleTask id) with
  | inl updatedTask =>
      outcome api (toggleTaskCompletion id) st = inl updatedTask
      /\ state_after api (toggleTaskCompletion id) st
         = HookState.mk
             (map (fun task => if Task.id task =? id then updatedTask
                               else task)
                (map (fun task =>
                        if Task.id task =? id
                        then set_task_completed task
                               (negb (Task.completed task))
                        else task)
                   (HookState.tasks st)))
             (HookState.loading st) None (HookState.filters st)
  | inr message =>
      outcome api (toggleTaskCompletion id) st = inr message
      /\ state_after api (toggleTaskCompletion id) st
         = match api _ (getTasks (filterParams_of (HookState.filters st)))
           with
           | inl fetchedTasks =>
               HookState.mk fetchedTasks false None (HookState.filters st)
           | inr message' =>
               HookState.mk
                 (map (fun task =>
                         if Task.id task =? id
                         then set_task_completed task
                                (negb (Task.completed task))
                         else task)
                    (HookState.tasks st))
                 false (Some message') (HookState.filters st)
           end
  end.
Proof.
  unfold toggleTaskCompletion.
  match goal with
  | |- context [try_catch ?p ?h] => set (body := p); set (handler := h)
  end.
  assert (Hbody :
    outcome api body st
    = match api _ (toggleTask id) with
      | inl updatedTask => inl updatedTask
      | inr message => inr message
      end
    /\ state_after api body st
       = HookState.mk
           (match api _ (toggleTask id) with
            | inl updatedTask =>
                map (fun task => if Task.id task =? id then updatedTask
                                 else task)
                  (map (fun task =>
                          if Task.id task =? id
                          then set_task_completed task
                                 (negb (Task.completed task))
                          else task)
                     (HookState.tasks st))
            | inr _ =>
                map (fun task =>
                       if Task.id task =? id
                       then set_task_completed task
                              (negb (Task.completed task))
                       else task)
                  (HookState.tasks st)
            end)
           (HookState.loading st) None (HookState.filters st)).
  { unfold body, setError, setTasks, await. cbn [bind]. run_steps.
    destruct (api Task.t (toggleTask id)) as [t'|m]; cbn [bind];
      run_steps; split; reflexivity. }
  destruct Hbody as [Ho Hs].
  rewrite (proj1 (run_try_catch _ _ _ _)), (proj2 (run_try_catch _ _ _ _)),
    Ho, Hs.
  destruct (api Task.t (toggleTask id)) as [t'|m].
  - split; reflexivity.
  - unfold handler. apply revert_on_error_run.
Qed.

Lemma removeTask_run (api : server) (st : HookState.t) (id : string) :
  match api _ (deleteTask id) with
  | inl _ =>
      outcome api (removeTask id) st
      = inl (find (fun task => Task.id task =? id) (HookState.tasks st))
      /\ state_after api (removeTask id) st
         = HookState.mk
             (filter (fun task => negb (Task.id task =? id))
                (HookState.tasks st))
             (HookState.loading st) None (HookState.filters st)
  | inr message =>
      outcome api (removeTask id) st = inr message
      /\ state_after api (removeTask id) st
         = match api _ (getTasks (filterParams_of (HookState.filters st)))
           with
           | inl fetchedTasks =>
               HookState.mk fetchedTasks false None (HookState.filters st)
           | inr message' =>
               HookState.mk
                 (filter (fun task => negb (Task.id task =? id))
                    (HookState.tasks st))
                 false (Some message') (HookState.filters st)
           end
  end.
Proof.
  unfold removeTask.
  match goal with
  | |- context [try_catch ?p ?h] => set (body := p); set (handler := h)
  end.
  assert (Hbody :
    outcome api body st
    = match api _ (deleteTask id) with
      | inl _ =>
          inl (find (fun task => Task.id task =? id) (HookState.tasks st))
      | inr message => inr message
      end
    /\ state_after api body st
       = HookState.mk
           (filter (fun task => negb (Task.id task =? id))
              (HookState.tasks st))
           (HookState.loading st) None (HookState.filters st)).
  { unfold body, setError, setTasks, await. cbn [bind]. run_steps.
    change (state_after api (ReadTasks ?k) ?s)
      with (state_after api (k (HookState.tasks s)) s).
    change (outcome api (ReadTasks ?k) ?s)
      with (outcome api (k (HookState.tasks s)) s).
    cbn [bind HookState.tasks]. run_steps.
    destruct (api unit (deleteTask id)) as [u|m]; cbn [bind];
      split; reflexivity. }
  destruct Hbody as [Ho Hs].
  rewrite (proj1 (run_try_catch _ _ _ _)), (proj2 (run_try_catch _ _ _ _)),
    Ho, Hs.
  destruct (api unit (deleteTask id)) as [u|m].
  - split; reflexivity.
  - unfold handler. apply revert_on_error_run.
Qed.




(** X20. When the server rejects an update, a toggle or a delete, the
    callback rethrows the server's message and refetches the list. If the
    refetch resolves, the local collection is the refetched list and
    [error] ends up null -- the refetch clears the message the [catch]
    block had just set; if the refetch rejects too, the optimistic change
    stays in the local collection and [error] is the refetch's message.
    Either way [loading] is false afterwards. *)
Theorem failed_mutation_refetches (api : server) (st : HookState.t)
  (id : string) (message : string) :
  (forall updates,
     api _ (updateTask id updates) = inr message ->
     outcome api (updateTaskData id updates) st = inr message
     /\ state_after api (updateTaskData id updates) st
        = match api _ (getTasks (filterParams_of (HookState.filters st)))
          with
          | inl fetchedTasks =>
              HookState.mk fetchedTasks false None (HookState.filters st)
          | inr message' =>
              HookState.mk
                (map (fun task => if Task.id task =? id
                                  then spread task updates else task)
                   (HookState.tasks st))
                false (Some message') (HookState.filters st)
          end)
  /\ (api _ (toggleTask id) = inr message ->
      outcome api (toggleTaskCompletion id) st = inr message
      /\ state_after api (toggleTaskCompletion id) st
         = match api _ (getTasks (filterParams_of (HookState.filters st)))
           with
           | inl fetchedTasks =>
               HookState.mk fetchedTasks false None (HookState.filters st)
           | inr message' =>
               HookState.mk
                 (map (fun task =>
                         if Task.id task =? id
                         then set_task_completed task
                                (negb (Task.completed task))
                         else task)
                    (HookState.tasks st))
                 false (Some message') (HookState.filters st)
           end)
  /\ (api _ (deleteTask id) = inr message ->
      outcome api (removeTask id) st = inr message
      /\ state_after api (removeTask id) st
         = match api _ (getTasks (filterParams_of (HookState.filters st)))
           with
           | inl fetchedTasks =>
               HookState.mk fetchedTasks false None (HookState.filters st)
           | inr message' =>
               HookState.mk
                 (filter (fun task => negb (Task.id task =? id))
                    (HookState.tasks st))
                 false (Some message') (HookState.filters st)
           end).
Proof.
  split; [|split].
  - intros updates H.
    pose proof (updateTaskData_run api st id updates) as R.
    rewrite H in R. exact R.
  - intros H. pose proof (toggleTaskCompletion_run api st id) as R.
    rewrite H in R. exact R.
  - intros H. pose proof (removeTask_run api st id) as R.
    rewrite H in R. exact R.
Qed.

(** A rejected toggle with a working refetch leaves no error in the state;
    a rejected delete with a failing refetch leaves the task removed
    locally. *)
Lemma failed_mutation_refetches_witness :
  (outcome sample_server (toggleTaskCompletion "ghost") sample_state
   = inr "Task not found"
   /\ state_after sample_server (toggleTaskCompletion "ghost") sample_state
      = sample_state)
  /\ (outcome failing_server (removeTask "t2") sample_state
      = inr "Task not found"
      /\ state_after failing_server (removeTask "t2") sample_state
         = HookState.mk
             [ to_json (sample_row "t1" "Complete project documentation"
                          (Some "2024-01-16T10:00:00.000Z") "high" 0 stamp0);
               to_json (sample_row "t3" "Update dependencies" None "low" 0
                          stamp0) ]
             false (Some "Network error")
             (Filters.mk "all" None "" "default")).
Proof.
  split.
  - exact (proj1 (proj2 (failed_mutation_refetches sample_server sample_state
                           "ghost" "Task not found")) eq_refl).
  - exact (proj2 (proj2 (failed_mutation_refetches failing_server sample_state
                           "t2" "Task not found")) eq_refl).
Defined.

(** X21. When the server accepts a delete, [removeTask] returns the task
    of that id as the local collection held it (or nothing if it held
    none) and leaves the collection without any task of that id and
    otherwise unchanged, in the same order. *)
Theorem removeTask_success (api : server) (st : HookState.t) (id : string) :
  api _ (deleteTask id) = inl tt ->
  outcome api (removeTask id) st
  = inl (find (fun task => Task.id task =? id) (HookState.tasks st))
  /\ (forall task,
        In task (HookState.tasks (state_after api (removeTask id) st))
        <-> In task (HookState.tasks st) /\ Task.id task <> id)
  /\ HookState.tasks (state_after api (removeTask id) st)
     = filter (fun task => negb (Task.id task =? id)) (HookState.tasks st)
  /\ HookState.error (state_after api (removeTask id) st) = None
  /\ (find (fun task => Task.id task =? id) (HookState.tasks st) = None ->
      HookState.tasks (state_after api (removeTask id) st)
      = HookState.tasks st).
Proof.
  intros H. pose proof (removeTask_run api st id) as R.
  rewrite H in R. destruct R as [Ho Hs]. rewrite Hs.
  cbn [HookState.tasks HookState.error].
  split; [exact Ho|]. split.
  { intros task. rewrite filter_In, negb_true_iff, String.eqb_neq. tauto. }
  split; [reflexivity|]. split; [reflexivity|].
  clear Ho Hs. generalize (HookState.tasks st). intros l Hnone.
  induction l as [|task l IH]; [reflexivity|].
  cbn [find filter] in *.
  destruct (Task.id task =? id); [discriminate|].
  cbn [negb]. rewrite (IH Hnone). reflexivity.
Qed.

Lemma removeTask_success_witness :
  outcome accepting_server (removeTask "t2") sample_state
  = inl (Some (to_json (sample_row "t2" "Review pull requests" None "medium"
                          0 stamp0)))
  /\ map Task.id
       (HookState.tasks
          (state_after accepting_server (removeTask "t2") sample_state))
     = ["t1"; "t3"].
Proof.
  destruct (removeTask_success accepting_server sample_state "t2" eq_refl)
    as (Ho & _ & Ht & _).
  split; [exact Ho|]. rewrite Ht. reflexivity.
Defined.

(** X22. [addTask] changes the local collection only when the server has
    created the task: then the server's record is put in front of the
    collection, which is otherwise unchanged, and returned. When the
    server rejects the request the collection is untouched, [error] is the
    server's message, the message is rethrown and no list is refetched. *)
Theorem addTask_settles (api : server) (st : HookState.t)
  (taskData : Body.t) :
  (forall newTask,
     api _ (createTask taskData) = inl newTask ->
     outcome api (addTask taskData) st = inl newTask
     /\ state_after api (addTask taskData) st
        = HookState.mk (newTask :: HookState.tasks st) (HookState.loading st)
            None (HookState.filters st))
  /\ (forall message,
        api _ (createTask taskData) = inr message ->
        outcome api (addTask taskData) st = inr message
        /\ state_after api (addTask taskData) st
           = HookState.mk (HookState.tasks st) (HookState.loading st)
               (Some message) (HookState.filters st)
        /\ trace api (addTask taskData) st
           = [EvSetError None; EvApi (createTask taskData);
              EvSetError (Some message)]).
Proof.
  assert (R :
    match api _ (createTask taskData) with
    | inl newTask =>
        outcome api (addTask taskData) st = inl newTask
        /\ state_after api (addTask taskData) st
           = HookState.mk (newTask :: HookState.tasks st)
               (HookState.loading st) None (HookState.filters st)
    | inr message =>
        outcome api (addTask taskData) st = inr message
        /\ state_after api (addTask taskData) st
           = HookState.mk (HookState.tasks st) (HookState.loading st)
               (Some message) (HookState.filters st)
    end).
  { unfold addTask, setError, setTasks, await. cbn [bind try_catch].
    run_steps.
    destruct (api Task.t (createTask taskData)) as [t|m];
      cbn [bind try_catch]; run_steps; split; reflexivity. }
  split.
  - intros newTask H. rewrite H in R. exact R.
  - intros message H. rewrite H in R. destruct R as [Ho Hs].
    split; [exact Ho|]. split; [exact Hs|].
    rewrite (proj2 (addTask_calls_before_set api st taskData)), H.
    reflexivity.
Qed.

Lemma addTask_settles_witness :
  state_after accepting_server
    (addTask (body_with (Val "Buy milk") Undefined Undefined)) sample_state
  = HookState.mk (milk :: map to_json sample_db) false None
      (Filters.mk "all" None "" "default")
  /\ state_after failing_server
       (addTask (body_with (Val "   ") Undefined Undefined)) sample_state
     = HookState.mk (map to_json sample_db) false
         (Some "Task title is required and cannot be empty")
         (Filters.mk "all" None "" "default").
Proof.
  split.
  - exact (proj2 (proj1 (addTask_settles accepting_server sample_state
                           (body_with (Val "Buy milk") Undefined Undefined))
                    milk eq_refl)).
  - exact (proj1 (proj2 (proj2 (addTask_settles failing_server sample_state
                           (body_with (Val "   ") Undefined Undefined))
                    "Task title is required and cannot be empty" eq_refl))).
Defined.

(** X23. [performBulkAction] makes no local change of its own. When the
    server accepts the bulk request the callback refetches and returns
    normally even if the refetch fails (the collection is then the
    refetched list, or unchanged with [error] the refetch's message); when
    the server rejects the bulk request the collection is untouched,
    [error] is the message, it is rethrown and nothing is refetched. *)
Theorem performBulkAction_settles (api : server) (st : HookState.t)
  (action : string) (taskIds : list string) :
  (api _ (bulkAction action taskIds) = inl tt ->
   outcome api (performBulkAction action taskIds) st = inl tt
   /\ state_after api (performBulkAction action taskIds) st
      = match api _ (getTasks (filterParams_of (HookState.filters st))) with
        | inl fetchedTasks =>
            HookState.mk fetchedTasks false None (HookState.filters st)
        | inr message =>
            HookState.mk (HookState.tasks st) false (Some message)
              (HookState.filters st)
        end)
  /\ (forall message,
        api _ (bulkAction action taskIds) = inr message ->
        outcome api (performBulkAction action taskIds) st = inr message
        /\ state_after api (performBulkAction action taskIds) st
           = HookState.mk (HookState.tasks st) (HookState.loading st)
               (Some message) (HookState.filters st)
        /\ trace api (performBulkAction action taskIds) st
           = [EvSetError None; EvApi (bulkAction action taskIds);
              EvSetError (Some message)]).
Proof.
  unfold performBulkAction.
  match goal with
  | |- context [try_catch ?p ?h] => set (body := p); set (handler := h)
  end.
  assert (Hbody :
    match api _ (bulkAction action taskIds) with
    | inl _ =>
        outcome api body st = inl tt
        /\ state_after api body st
           = match api _ (getTasks (filterParams_of (HookState.filters st)))
             with
             | inl fetchedTasks =>
                 HookState.mk fetchedTasks false None (HookState.filters st)
             | inr message =>
                 HookState.mk (HookState.tasks st) false (Some message)
                   (HookState.filters st)
             end
    | inr message =>
        outcome api body st = inr message
        /\ state_after api body st
           = HookState.mk (HookState.tasks st) (HookState.loading st) None
               (HookState.filters st)
    end).
  { unfold body, setError, await. cbn [bind]. run_steps.
    destruct (api unit (bulkAction action taskIds)) as [u|m]; cbn [bind].
    - destruct (fetchTasks_run api
                  (HookState.mk (HookState.tasks st) (HookState.loading st)
                     None (HookState.filters st))) as (Ho & Hs & _).
      split; [exact Ho|exact Hs].
    - split; reflexivity. }
  split.
  - intros H. rewrite H in Hbody. destruct Hbody as [Ho Hs].
    rewrite (proj1 (run_try_catch _ _ _ _)), (proj2 (run_try_catch _ _ _ _)),
      Ho, Hs.
    split; reflexivity.
  - intros message H. rewrite H in Hbody. destruct Hbody as [Ho Hs].
    rewrite (proj1 (run_try_catch _ _ _ _)), (proj2 (run_try_catch _ _ _ _)),
      Ho, Hs.
    unfold handler, setError. cbn [bind]. run_steps.
    split; [reflexivity|]. split; [reflexivity|].
    unfold body, setError, await. cbn [bind try_catch].
    rewrite trace_SetError, trace_Await, H. cbn [bind try_catch].
    rewrite trace_SetError. reflexivity.
Qed.

Lemma performBulkAction_settles_witness :
  outcome failing_server (performBulkAction "archive" ["t1"]) sample_state
  = inr "Invalid action"
  /\ state_after failing_server (performBulkAction "archive" ["t1"])
       sample_state
     = HookState.mk (map to_json sample_db) false (Some "Invalid action")
         (Filters.mk "all" None "" "default")
  /\ outcome accepting_server (performBulkAction "complete" ["t1"])
       (HookState.mk [] false None (Filters.mk "all" None "" "default"))
     = inl tt
  /\ state_after accepting_server (performBulkAction "complete" ["t1"])
       (HookState.mk [] false None (Filters.mk "all" None "" "default"))
     = sample_state.
Proof.
  destruct (proj2 (performBulkAction_settles failing_server sample_state
                     "archive" ["t1"]) "Invalid action" eq_refl)
    as (Ho & Hs & _).
  destruct (proj1 (performBulkAction_settles accepting_server
                     (HookState.mk [] false None
                        (Filters.mk "all" None "" "default"))
                     "complete" ["t1"]) eq_refl) as (Ho' & Hs').
  split; [exact Ho|]. split; [exact Hs|]. split; [exact Ho'|exact Hs'].
Defined.

(** * Further properties of Update *)

Lemma update_where_id_ext (db : table) (id : string) (f g : Row.t -> Row.t) :
  (forall r, In r db -> Row.id r = id -> f r = g r) ->
  update_where_id db id f = update_where_id db id g.
Proof.
  intros H. unfold update_where_id. apply map_ext_in. intros r Hin.
  destruct (Row.id r =? id) eqn:E; [|reflexivity].
  apply H; [exact Hin|]. apply String.eqb_eq. exact E.
Qed.

Lemma update_where_id_twice (db : table) (id : string)
  (f g : Row.t -> Row.t) :
  (forall r, Row.id (f r) = Row.id r) ->
  update_where_id (update_where_id db id f) id g
  = update_where_id db id (fun r => g (f r)).
Proof.
  intros Hf. unfold update_where_id. rewrite map_map. apply map_ext.
  intros r. destruct (Row.id r =? id) eqn:E; [|rewrite E; reflexivity].
  rewrite Hf, E. reflexivity.
Qed.

(** X24. Sending a task back as it was read changes nothing but
    [updatedAt]: for a well-formed row whose due date, if any, parses, an
    Update whose body is the task's own JSON is answered 200 with the same
    task, [updatedAt] apart, and every other row can be read back
    unchanged. *)
Theorem put_task_of_read_task (parse_ok : string -> bool) (db : table)
  (id : string) (r : Row.t) (now : string) :
  select_by_id db id = Some r ->
  row_ok r ->
  (forall s, Row.dueDate r = Some s -> parse_ok s = true) ->
  exists db',
    put_task parse_ok db id (body_of_task (to_json r)) now
    = (db',
       Json 200 (TaskJson
         (Task.mk (Row.id r) (Row.title r) (Row.description r)
            (Row.dueDate r) (Row.priority r) (Row.tags r)
            (Boolean (Row.completed r)) (Row.createdAt r) now)))
    /\ (forall id', id' <> id -> select_by_id db' id' = select_by_id db id').
Proof.
  intros Hsel (Ht & Hb & Hd & Hp & Hc) Hdue.
  assert (Hset : set_clause (body_of_task (to_json r)) now r
                 = Row.mk (Row.id r) (Row.title r) (Row.description r)
                     (Row.dueDate r) (Row.priority r) (Row.tags r)
                     (Row.completed r) (Row.createdAt r) now).
  { unfold set_clause, body_of_task.
    cbn [to_json Body.title Body.description Body.dueDate Body.priority
           Body.tags Body.completed Task.title Task.description Task.dueDate
           Task.priority Task.tags Task.completed].
    rewrite Ht, Hd.
    destruct (Row.dueDate r), (Row.tags r);
      destruct Hc as [-> | ->]; reflexivity. }
  exists (update_where_id db id (set_clause (body_of_task (to_json r)) now)).
  split.
  - rewrite (put_task_valid parse_ok db id r _ now Hsel).
    + rewrite Hset. reflexivity.
    + rewrite update_title_invalid_blank. cbn. rewrite Hb. reflexivity.
    + rewrite update_priority_outside. cbn.
      apply negb_false_iff. simpl in Hp.
      destruct Hp as [<-|[<-|[<-|[]]]]; reflexivity.
    + cbn. destruct (Row.dueDate r) as [s|] eqn:E; [|reflexivity].
      cbn. rewrite (Hdue s eq_refl). reflexivity.
    + discriminate.
  - intros id' Hne. rewrite select_after_update by apply set_clause_id.
    apply String.eqb_neq in Hne. rewrite Hne. reflexivity.
Qed.

Lemma put_task_of_read_task_witness :
  exists db',
    put_task iso_parse_ok sample_db "t1"
      (body_of_task
         (to_json (sample_row "t1" "Complete project documentation"
                     (Some "2024-01-16T10:00:00.000Z") "high" 0 stamp0)))
      stamp1
    = (db',
       Json 200 (TaskJson
         (Task.mk "t1" "Complete project documentation" ""
            (Some "2024-01-16T10:00:00.000Z") "high" (Some []) false stamp0
            stamp1)))
    /\ select_by_id db' "t2" = select_by_id sample_db "t2".
Proof.
  destruct (put_task_of_read_task iso_parse_ok sample_db "t1"
              (sample_row "t1" "Complete project documentation"
                 (Some "2024-01-16T10:00:00.000Z") "high" 0 stamp0)
              stamp1 eq_refl) as (db' & E & Ho).
  - repeat split; try reflexivity; simpl; auto.
  - intros s [= <-]. reflexivity.
  - exists db'. split; [exact E|]. apply Ho. discriminate.
Defined.

(** X25. Repeating an Update absorbs the first one: the same request, run
    on the table its first run left, gives the table and the answer it
    would have given on the original table at the later clock reading. *)
Theorem put_task_twice (parse_ok : string -> bool) (db : table)
  (id : string) (body : Body.t) (now1 now2 : string) :
  put_task parse_ok (fst (put_task parse_ok db id body now1)) id body now2
  = put_task parse_ok db id body now2.
Proof.
  destruct (put_task_cases parse_ok db id body now1)
    as [[_ E]|(r & Hsel & Ht & Hp & Hd & Hdesc & E)]; rewrite E;
    [reflexivity|].
  cbn [fst].
  assert (Hsel' : select_by_id
                    (update_where_id db id (set_clause body now1)) id
                  = Some (set_clause body now1 r)).
  { rewrite select_after_update by apply set_clause_id.
    rewrite String.eqb_refl, Hsel. reflexivity. }
  rewrite (put_task_valid parse_ok _ id _ body now2 Hsel' Ht Hp Hd Hdesc),
    (put_task_valid parse_ok db id r body now2 Hsel Ht Hp Hd Hdesc).
  rewrite update_where_id_twice by apply set_clause_id.
  f_equal.
  - apply update_where_id_ext. intros r0 _ _.
    unfold set_clause. cbn.
    destruct (Body.title body), (Body.description body),
      (Body.dueDate body), (Body.priority body), (Body.tags body),
      (Body.completed body) as [| |[|]]; reflexivity.
  - do 3 f_equal. unfold set_clause. cbn.
    destruct (Body.title body), (Body.description body),
      (Body.dueDate body), (Body.priority body), (Body.tags body),
      (Body.completed body) as [| |[|]]; reflexivity.
Qed.

(** X26. Toggle is the Update that sends only the negated completion
    flag: for a task that exists, [PATCH /:id/toggle] and
    [PUT /:id] with body [{ completed: !completed }] leave the same table
    and give the same answer. *)
Theorem patch_toggle_is_put_task (parse_ok : string -> bool) (db : table)
  (id : string) (r : Row.t) (now : string) :
  select_by_id db id = Some r ->
  patch_toggle db id now
  = put_task parse_ok db id
      (completed_only (negb (Task.completed (to_json r)))) now.
Proof.
  intros Hsel.
  rewrite (proj1 (patch_toggle_present db id r now Hsel)).
  rewrite (put_task_valid parse_ok db id r _ now Hsel);
    try reflexivity; [|discriminate].
  cbn [to_json Task.completed].
  f_equal.
  - apply update_where_id_ext. intros r0 Hin Hid.
    unfold set_clause, set_completed, completed_only. cbn.
    destruct (Boolean (Row.completed r)); reflexivity.
  - unfold set_clause, set_completed, completed_only. cbn.
    destruct (Boolean (Row.completed r)); reflexivity.
Qed.

Lemma patch_toggle_is_put_task_witness :
  patch_toggle sample_db "t2" stamp1
  = put_task iso_parse_ok sample_db "t2" (completed_only true) stamp1
  /\ fst (patch_toggle sample_db "t2" stamp1)
     = [ sample_row "t1" "Complete project documentation"
           (Some "2024-01-16T10:00:00.000Z") "high" 0 stamp0;
         Row.mk "t2" "Review pull requests" "" None "medium" (Some []) 1
           stamp0 stamp1;
         sample_row "t3" "Update dependencies" None "low" 0 stamp0 ].
Proof.
  split; [|reflexivity].
  exact (patch_toggle_is_put_task iso_parse_ok sample_db "t2" _ stamp1
           eq_refl).
Defined.
